(** * The file-upload service: Express routes over Cloudinary and MongoDB

    A shallow embedding of the server (the Express application with its five
    routes) and the properties of its routes.

    The server is glue between three libraries: multer parses the multipart
    body, the Cloudinary SDK stores the bytes, mongoose stores one document
    per file.  The routes are embedded as they are written: [async]
    functions whose [await]s may throw into the enclosing [try]/[catch].
    What the libraries and the outside world answer during one request is an
    explicit argument ([outside]); what the server changes is an explicit
    state ([world]: the [files] collection and the log of library calls).
    [console.log] output is not part of the model.

    The browser client (the React component) is embedded the same way, over
    whatever answers its axios calls; put in front of the server, it gives
    the properties of the two together. *)

From Stdlib Require Import ZArith Ascii String List Permutation Sorted Lia.
From Stdlib Require Import Strings.Byte.
From stdpp Require Import base decidable option list gmap strings pretty.

Set Warnings "-register-all".
Open Scope string_scope.
Open Scope Z_scope.
Open Scope list_scope.

(** ** JavaScript values *)

(** A [string] holds a JavaScript string as its UTF-8 bytes. *)

Module Js.

(** [process.env]: an object used as a map from names to strings. *)
Abbreviation env := (gmap string string).

(** [!!x] for [x] read from [process.env]: [undefined] and the empty
    string are falsy, every other string is truthy. *)
Definition truthy (x : option string) : bool :=
  match x with
  | None => false
  | Some s => negb (String.eqb s "")
  end.

(** What [res.json] serialises.  [JDate ms] is a [Date] (milliseconds since
    the epoch), which JSON renders as its ISO-8601 string; an object keeps
    its keys in insertion order. *)
Inductive json :=
| JBool (b : bool)
| JNum (n : Z)
| JStr (s : string)
| JDate (ms : Z)
| JArr (items : list json)
| JObj (fields : list (string * json)).

Definition keys (j : json) : list string :=
  match j with
  | JObj fields => fst <$> fields
  | _ => []
  end.

Fixpoint assoc (k : string) (fields : list (string * json)) : option json :=
  match fields with
  | [] => None
  | (k', v) :: rest => if String.eqb k k' then Some v else assoc k rest
  end.

(** [j.k] *)
Definition get (k : string) (j : json) : option json :=
  match j with
  | JObj fields => assoc k fields
  | _ => None
  end.

(** The state of a [Promise]. *)
Inductive promise (A : Type) :=
| Unsettled
| Fulfilled (value : A)
| Rejected (message : string).
Arguments Unsettled {A}.
Arguments Fulfilled {A} value.
Arguments Rejected {A} message.

End Js.
Import Js.

(** ** The HTTP response *)

Inductive payload :=
| json_body (j : json)
| error_page (message : string).

Record response := { status : Z; body : payload }.

(** [res.json(j)], with the default status. *)
Definition res_json (j : json) : response :=
  {| status := 200; body := json_body j |}.

(** [res.status(code).json(j)] *)
Definition res_status_json (code : Z) (j : json) : response :=
  {| status := code; body := json_body j |}.

Definition server_error (r : response) : Prop := 500 <= status r < 600.

(** ** ObjectIds *)

Module Bson.

#[global] Instance byte_eq_dec : EqDecision byte := Byte.byte_eq_dec.

(** An ObjectId: twelve bytes. *)
Record objectid := {
  byte0 : byte; byte1 : byte; byte2 : byte; byte3 : byte;
  byte4 : byte; byte5 : byte; byte6 : byte; byte7 : byte;
  byte8 : byte; byte9 : byte; byte10 : byte; byte11 : byte
}.

#[global] Instance objectid_eq_dec : EqDecision objectid.
Proof. solve_decision. Defined.

Definition bytes_of (i : objectid) : list byte :=
  [ byte0 i; byte1 i; byte2 i; byte3 i; byte4 i; byte5 i;
    byte6 i; byte7 i; byte8 i; byte9 i; byte10 i; byte11 i ].

Definition of_bytes (l : list byte) : option objectid :=
  match l with
  | [c0; c1; c2; c3; c4; c5; c6; c7; c8; c9; c10; c11] =>
      Some {| byte0 := c0; byte1 := c1; byte2 := c2; byte3 := c3;
              byte4 := c4; byte5 := c5; byte6 := c6; byte7 := c7;
              byte8 := c8; byte9 := c9; byte10 := c10; byte11 := c11 |}
  | _ => None
  end.

(** A hexadecimal digit, in lower case. *)
Definition hex_digit (n : N) : ascii :=
  (if n <? 10 then ascii_of_N (48 + n) else ascii_of_N (87 + n))%N.

(** The value of a hexadecimal digit, of either case. *)
Definition hex_value (c : ascii) : option N :=
  let n := N_of_ascii c in
  (if (48 <=? n) && (n <=? 57) then Some (n - 48)
   else if (97 <=? n) && (n <=? 102) then Some (n - 87)
   else if (65 <=? n) && (n <=? 70) then Some (n - 55)
   else None)%N.

Definition hex_of_byte (b : byte) : string :=
  String (hex_digit (Byte.to_N b / 16)) (String (hex_digit (Byte.to_N b mod 16)) "").

Fixpoint hex_of_bytes (l : list byte) : string :=
  match l with
  | [] => ""
  | b :: rest => hex_of_byte b +:+ hex_of_bytes rest
  end.

Fixpoint bytes_of_hex (s : string) : option (list byte) :=
  match s with
  | "" => Some []
  | String hi (String lo rest) =>
      match hex_value hi, hex_value lo, bytes_of_hex rest with
      | Some h, Some l, Some bytes =>
          match Byte.of_N (16 * h + l) with
          | Some b => Some (b :: bytes)
          | None => None
          end
      | _, _, _ => None
      end
  | String _ "" => None
  end.

(** [id.toHexString()], which is also how an ObjectId goes into JSON and
    into a template string: 24 hexadecimal digits, in lower case. *)
Definition toHexString (i : objectid) : string := hex_of_bytes (bytes_of i).

(** The ObjectId of 24 hexadecimal digits, of either case. *)
Definition of_hex (s : string) : option objectid :=
  match bytes_of_hex s with
  | Some l => of_bytes l
  | None => None
  end.

Definition ascii_byte (c : ascii) : option byte :=
  if (N_of_ascii c <? 128)%N then Some (byte_of_ascii c) else None.

Fixpoint ascii_bytes (s : string) : option (list byte) :=
  match s with
  | "" => Some []
  | String c rest =>
      match ascii_byte c, ascii_bytes rest with
      | Some b, Some l => Some (b :: l)
      | _, _ => None
      end
  end.

(** The ObjectId of a string of twelve characters that are twelve bytes. *)
Definition of_12_bytes (s : string) : option objectid :=
  match ascii_bytes s with
  | Some l => of_bytes l
  | None => None
  end.

(** The cast mongoose applies to the id of a query, [new ObjectId(s)]: a
    string of 24 hexadecimal digits is an ObjectId; a string of twelve bytes
    is one for the versions of the driver that take it ([from_12_bytes]);
    any other string is refused, and the query rejects with a [CastError]. *)
Definition castObjectId (from_12_bytes : bool) (s : string) : option objectid :=
  match of_hex s with
  | Some i => Some i
  | None => if from_12_bytes then of_12_bytes s else None
  end.

End Bson.
Import Bson.
Coercion toHexString : objectid >-> string.

(** ** The [File] model *)

(** A document of [fileSchema], with the [_id] mongoose gives it.
    [uploadDate] is a [Date], in milliseconds since the epoch. *)
Record FileDoc := {
  _id : objectid;
  filename : string;
  originalName : string;
  cloudinaryUrl : string;
  uploadDate : Z
}.

(** The document as [res.json] sends it: [_id], the schema's paths under
    their own names, and the version key mongoose keeps, which stays [0] for a
    document that is saved once and never updated.  The order of the keys is
    not relied upon below. *)
Definition toJSON (d : FileDoc) : json :=
  JObj [ ("_id", JStr (_id d));
         ("filename", JStr (filename d));
         ("originalName", JStr (originalName d));
         ("cloudinaryUrl", JStr (cloudinaryUrl d));
         ("uploadDate", JDate (uploadDate d));
         ("__v", JNum 0) ].

(** ** Library calls and the state of the service *)

(** What Cloudinary's upload answers with (the part the server reads). *)
Record upload_result := { secure_url : string }.

Inductive call :=
| cloudinary_upload_stream (resource_type folder : string) (buffer : list byte)
| File_save (doc : FileDoc)
| File_find
| File_findById (id : string)
| File_findByIdAndDelete (id : string).

Definition is_cloudinary (c : call) : bool :=
  match c with
  | cloudinary_upload_stream _ _ _ => true
  | _ => false
  end.

(** [files]: the collection, in insertion order.  [calls]: the library calls
    made so far, oldest first. *)
Record world := { files : list FileDoc; calls : list call }.

Definition cloudinary_calls (w : world) : list call :=
  filter (fun c => is_cloudinary c = true) (calls w).

Definition ids (w : world) : list objectid := _id <$> files w.

(** What the outside answers during one request. *)
Inductive stream_event :=
| callback_error (message : string)
| callback_result (result : upload_result)
| stream_error (message : string)
| executor_throws (message : string).

Record outside := {
  (** what the upload reports, in order: calls of the callback given to
      [upload_stream], ['error'] events of the stream, and an exception
      thrown by [upload_stream], [on] or [end] while the promise's executor
      runs *)
  stream_events : list stream_event;
  (** the ObjectId [new File] generates *)
  ObjectId : objectid;
  (** whether the installed driver takes a string of twelve bytes for an
      ObjectId *)
  ObjectId_from_12_bytes : bool;
  (** [Date.now()] *)
  Date_now : Z;
  (** the message a mongoose call rejects with, when it does *)
  save_fault : option string;
  find_fault : option string;
  findById_fault : option string;
  findByIdAndDelete_fault : option string
}.

(** ** Asynchronous functions *)

Inductive outcome (A : Type) :=
| Returned (a : A)
| Thrown (message : string)
| Hangs.
Arguments Returned {A} a.
Arguments Thrown {A} message.
Arguments Hangs {A}.

(** An [async] function body: it returns, throws an [Error] (of which the
    routes read [message] only), or waits for ever on a promise that never
    settles. *)
Definition async (A : Type) : Type := world -> outcome A * world.

#[global] Instance async_ret : MRet async :=
  fun A a w => (Returned a, w).

#[global] Instance async_bind : MBind async :=
  fun A B k m w =>
    match m w with
    | (Returned a, w') => k a w'
    | (Thrown e, w') => (Thrown e, w')
    | (Hangs, w') => (Hangs, w')
    end.

(** [try { body } catch (error) { handler(error.message) }] *)
Definition try_catch {A} (body : async A) (handler : string -> async A) : async A :=
  fun w =>
    match body w with
    | (Thrown e, w') => handler e w'
    | r => r
    end.

Definition log_call (c : call) : async unit :=
  fun w => (Returned tt, {| files := files w; calls := calls w ++ [c] |}).

Definition throw {A} (message : string) : async A :=
  fun w => (Thrown message, w).

Definition hang {A} : async A :=
  fun w => (Hangs, w).

Definition get_files : async (list FileDoc) :=
  fun w => (Returned (files w), w).

Definition put_files (l : list FileDoc) : async unit :=
  fun w => (Returned tt, {| files := l; calls := calls w |}).

(** [await p] *)
Definition await {A} (p : promise A) : async A :=
  match p with
  | Fulfilled a => mret a
  | Rejected e => throw e
  | Unsettled => hang
  end.

(** A mongoose call that rejects when the outside says so. *)
Definition or_reject (fault : option string) : async unit :=
  match fault with
  | Some e => throw e
  | None => mret tt
  end.

(** ** Configuration read at start-up *)

Section Configuration.
Variable process_env : env.

(** The start-up validation: the condition under which the server reports
    the Cloudinary environment variables as missing. *)
Definition cloudinary_env_missing : bool :=
  negb (truthy (process_env !! "CLOUDINARY_CLOUD_NAME"))
  || negb (truthy (process_env !! "CLOUDINARY_API_KEY"))
  || negb (truthy (process_env !! "CLOUDINARY_API_SECRET")).

(** The flag both status routes send. *)
Definition cloudinary_configured : bool :=
  truthy (process_env !! "CLOUDINARY_CLOUD_NAME").
End Configuration.

(** ** multer: the multipart body and [upload.single] *)

(** A part of a multipart body: a text field or a file. *)
Inductive part :=
| text_field (name value : string)
| file_field (name original mime : string) (content : list byte).

(** [req.file] under memory storage. *)
Record multer_file := {
  fieldname : string;
  originalname : string;
  mimetype : string;
  size : Z;
  buffer : list byte
}.

Inductive MulterError :=
| LIMIT_FILE_SIZE
| LIMIT_UNEXPECTED_FILE.

Record multer := { fileSize : Z }.

(** [multer({ storage: multer.memoryStorage(), limits: { fileSize: ... } })] *)
Definition upload : multer := {| fileSize := 10 * 1024 * 1024 |}.

Definition separator (c : ascii) : bool :=
  Ascii.eqb c "/" || Ascii.eqb c "\".

(** What follows the last separator of a path, when it has one. *)
Fixpoint after_last_separator (s : string) : option string :=
  match s with
  | "" => None
  | String c rest =>
      match after_last_separator rest with
      | Some t => Some t
      | None => if separator c then Some rest else None
      end
  end.

(** The file name the parser keeps of the one a part announces: its last
    segment, and nothing for [.] and [..]. *)
Definition basename (s : string) : string :=
  let t := default s (after_last_separator s) in
  if String.eqb t "." || String.eqb t ".." then "" else t.

(** A string here is the bytes of a JavaScript string in UTF-8.  A byte read
    as a Latin-1 character is itself below 128, and the two bytes of that
    character from 128 on. *)
Definition latin1_char (c : ascii) : string :=
  let n := N_of_ascii c in
  (if n <? 128 then String c ""
   else String (ascii_of_N (192 + n / 64)) (String (ascii_of_N (128 + n mod 64)) ""))%N.

(** The bytes of a header parameter read as Latin-1, the parser's default
    for a file name. *)
Fixpoint latin1 (s : string) : string :=
  match s with
  | "" => ""
  | String c rest => latin1_char c +:+ latin1 rest
  end.

(** [m.single(name)] over the parts of the body, in order, as the versions
    of multer built on busboy 1 do it.  A file part whose file name comes out
    empty is passed over.  A file under another field name, or a second file,
    is an unexpected file; a file that reaches [fileSize] bytes is too large
    (versions built on the older parser take a file of exactly [fileSize]
    bytes); the first error ends the parsing.  [got] is the file accepted so
    far. *)
Fixpoint single_from (m : multer) (name : string) (got : option multer_file)
    (parts : list part) : MulterError + option multer_file :=
  match parts with
  | [] => inr got
  | text_field _ _ :: rest => single_from m name got rest
  | file_field field original mime content :: rest =>
      if String.eqb (basename original) "" then single_from m name got rest
      else if negb (String.eqb field name) then inl LIMIT_UNEXPECTED_FILE
      else match got with
           | Some _ => inl LIMIT_UNEXPECTED_FILE
           | None =>
               if fileSize m <=? Z.of_nat (length content) then inl LIMIT_FILE_SIZE
               else single_from m name
                      (Some {| fieldname := field;
                               originalname := latin1 (basename original);
                               mimetype := mime;
                               size := Z.of_nat (length content);
                               buffer := content |})
                      rest
           end
  end.

Definition single (m : multer) (name : string) (parts : list part)
    : MulterError + option multer_file :=
  single_from m name None parts.

(** The messages of the two errors.  The text for an unexpected file differs
    between versions of multer; nothing below depends on it. *)
Definition MulterError_message (e : MulterError) : string :=
  match e with
  | LIMIT_FILE_SIZE => "File too large"
  | LIMIT_UNEXPECTED_FILE => "Unexpected field"
  end.

(** Express's own error handler, which answers when a middleware passes an
    error on and the application registers no handler: the error carries no
    status, so the status is 500. *)
Definition default_error_handler (e : MulterError) : response :=
  {| status := 500; body := error_page (MulterError_message e) |}.

(** ** Cloudinary: the promise around [upload_stream] *)

(** One report, against the promise's state: the callback rejects on an
    error and resolves on a result, an ['error'] event rejects, and an
    exception thrown in the executor rejects with the exception as it is; a
    settled promise stays as it is. *)
Definition on_event (p : promise upload_result) (ev : stream_event)
    : promise upload_result :=
  match p with
  | Unsettled =>
      match ev with
      | callback_error m => Rejected ("Cloudinary error: " +:+ m)
      | callback_result r => Fulfilled r
      | stream_error m => Rejected ("Stream error: " +:+ m)
      | executor_throws m => Rejected m
      end
  | settled => settled
  end.

Definition upload_promise (events : list stream_event) : promise upload_result :=
  fold_left on_event events Unsettled.

Definition upload_to_cloudinary (o : outside) (content : list byte)
    : async upload_result :=
  _ ← log_call (cloudinary_upload_stream "auto" "mern-uploads" content);
  await (upload_promise (stream_events o)).

(** ** mongoose: the operations of [File] the routes use *)

(** [new File({ filename, originalName, cloudinaryUrl })]: mongoose adds the
    [_id] and the default [uploadDate]. *)
Definition new_File (o : outside) (name original url : string) : FileDoc :=
  {| _id := ObjectId o; filename := name; originalName := original;
     cloudinaryUrl := url; uploadDate := Date_now o |}.

(** [doc.save()]: the collection's index on [_id] refuses a second document
    with the same [_id]. *)
Definition save (o : outside) (doc : FileDoc) : async unit :=
  _ ← log_call (File_save doc);
  _ ← or_reject (save_fault o);
  l ← get_files;
  if bool_decide (_id doc ∈ _id <$> l)
  then throw "E11000 duplicate key error"
  else put_files (l ++ [doc]).

(** Sorting by [{ uploadDate: -1 }]: newest first; documents of the same
    date keep their order. *)
Fixpoint insert_desc (d : FileDoc) (l : list FileDoc) : list FileDoc :=
  match l with
  | [] => [d]
  | x :: rest =>
      if uploadDate x <=? uploadDate d then d :: l
      else x :: insert_desc d rest
  end.

Fixpoint sort_uploadDate_desc (l : list FileDoc) : list FileDoc :=
  match l with
  | [] => []
  | d :: rest => insert_desc d (sort_uploadDate_desc rest)
  end.

(** [File.find().sort({ uploadDate: -1 })] *)
Definition find_sorted (o : outside) : async (list FileDoc) :=
  _ ← log_call File_find;
  _ ← or_reject (find_fault o);
  l ← get_files;
  mret (sort_uploadDate_desc l).

Fixpoint lookup_id (id : objectid) (l : list FileDoc) : option FileDoc :=
  match l with
  | [] => None
  | d :: rest => if bool_decide (_id d = id) then Some d else lookup_id id rest
  end.

Fixpoint remove_id (id : objectid) (l : list FileDoc) : list FileDoc :=
  match l with
  | [] => []
  | d :: rest => if bool_decide (_id d = id) then rest else d :: remove_id id rest
  end.

(** The id of a query, cast to an ObjectId before the query is sent. *)
Definition cast_id (o : outside) (id : string) : async objectid :=
  match castObjectId (ObjectId_from_12_bytes o) id with
  | Some i => mret i
  | None => throw "Cast to ObjectId failed"
  end.

(** [File.findById(id)] *)
Definition findById (o : outside) (id : string) : async (option FileDoc) :=
  _ ← log_call (File_findById id);
  i ← cast_id o id;
  _ ← or_reject (findById_fault o);
  l ← get_files;
  mret (lookup_id i l).

(** [File.findByIdAndDelete(id)] *)
Definition findByIdAndDelete (o : outside) (id : string) : async (option FileDoc) :=
  _ ← log_call (File_findByIdAndDelete id);
  i ← cast_id o id;
  _ ← or_reject (findByIdAndDelete_fault o);
  l ← get_files;
  _ ← put_files (remove_id i l);
  mret (lookup_id i l).

(** ** The routes *)

Section Routes.
Variable process_env : env.
Variable o : outside.

(** [GET /api/test] *)
Definition api_test : async response :=
  mret (res_json (JObj [ ("message", JStr "Backend is working!");
                         ("cloudinary_configured",
                          JBool (cloudinary_configured process_env)) ])).

(** The body sent for a saved document. *)
Definition uploaded (fileDoc : FileDoc) : json :=
  JObj [ ("message", JStr "File uploaded successfully");
         ("file", JObj [ ("id", JStr (_id fileDoc));
                         ("filename", JStr (filename fileDoc));
                         ("url", JStr (cloudinaryUrl fileDoc));
                         ("uploadDate", JDate (uploadDate fileDoc)) ]) ].

(** The handler of [POST /api/upload], after multer has set [req.file]. *)
Definition api_upload_handler (req_file : option multer_file) : async response :=
  try_catch
    (match req_file with
     | None => mret (res_status_json 400 (JObj [ ("error", JStr "No file uploaded") ]))
     | Some file =>
         result ← upload_to_cloudinary o (buffer file);
         let fileDoc :=
           new_File o (originalname file) (originalname file) (secure_url result) in
         _ ← save o fileDoc;
         mret (res_json (uploaded fileDoc))
     end)
    (fun message =>
       mret (res_status_json 500 (JObj [ ("error", JStr "Upload failed");
                                         ("details", JStr message) ]))).

(** [POST /api/upload]: [upload.single('file')], then the handler. *)
Definition api_upload (body : list part) : async response :=
  match single upload "file" body with
  | inl e => mret (default_error_handler e)
  | inr req_file => api_upload_handler req_file
  end.

(** [GET /api/files] *)
Definition api_files : async response :=
  try_catch
    (found ← find_sorted o;
     mret (res_json (JArr (toJSON <$> found))))
    (fun _ => mret (res_status_json 500 (JObj [ ("error", JStr "Failed to fetch files") ]))).

(** [DELETE /api/files/:id] *)
Definition api_files_delete (id : string) : async response :=
  try_catch
    (file ← findById o id;
     match file with
     | None => mret (res_status_json 404 (JObj [ ("error", JStr "File not found") ]))
     | Some _ =>
         _ ← findByIdAndDelete o id;
         mret (res_json (JObj [ ("message", JStr "File deleted from database") ]))
     end)
    (fun _ => mret (res_status_json 500 (JObj [ ("error", JStr "Delete failed") ]))).

(** [GET /health] *)
Definition health : async response :=
  mret (res_json (JObj [ ("status", JStr "OK");
                         ("timestamp", JDate (Date_now o));
                         ("cloudinary_configured",
                          JBool (cloudinary_configured process_env)) ])).
End Routes.

(** ** The application *)

Inductive request :=
| GET_api_test
| POST_api_upload (body : list part)
| GET_api_files
| DELETE_api_files (id : string)
| GET_health.

Definition app (process_env : env) (o : outside) (req : request) : async response :=
  match req with
  | GET_api_test => api_test process_env
  | POST_api_upload body => api_upload o body
  | GET_api_files => api_files o
  | DELETE_api_files id => api_files_delete o id
  | GET_health => health process_env o
  end.

(** The states the service can be in: it starts with an empty collection, and
    serves requests one after the other, whatever the outside answers. *)
Inductive reachable (process_env : env) : world -> Prop :=
| at_start : reachable process_env {| files := []; calls := [] |}
| after_request w o req :
    reachable process_env w ->
    reachable process_env (snd (app process_env o req w)).

(** ** Words of the specification *)





(** Newest first: [a] may stand before [b]. *)
Definition newest_first (a b : FileDoc) : Prop := uploadDate b <= uploadDate a.

(** Strictly newest first: [a] must stand before [b]. *)
Definition strictly_newest_first (a b : FileDoc) : Prop := uploadDate b < uploadDate a.

(** An object whose keys are the given names, in whatever order. *)
Definition has_keys (names : list string) (j : json) : Prop :=
  forall k, k ∈ keys j <-> k ∈ names.

(** A character of a plain file name: a letter, a digit, a space, or one of
    [.], [-], [_]. *)
Definition plain_char (c : ascii) : bool :=
  let n := N_of_ascii c in
  ((48 <=? n) && (n <=? 57) || (65 <=? n) && (n <=? 90) || (97 <=? n) && (n <=? 122)
   || (n =? 32) || (n =? 46) || (n =? 45) || (n =? 95))%N.

Fixpoint plain_chars (s : string) : bool :=
  match s with
  | "" => true
  | String c rest => plain_char c && plain_chars rest
  end.

(** A plain file name: not empty, not [.] or [..], of plain characters. *)
Definition plain_name (s : string) : bool :=
  plain_chars s
  && negb (String.eqb s "") && negb (String.eqb s ".") && negb (String.eqb s "..").

(** ** Example values *)

(** Values at which the statements below are instantiated. *)
Module Examples.
Definition cat : list byte := [x89; x50; x4e; x47]%byte.

Definition form : list part :=
  [ text_field "caption" "a cat"; file_field "file" "cat.png" "image/png" cat ].

Definition cat_file : multer_file :=
  {| fieldname := "file"; originalname := "cat.png"; mimetype := "image/png";
     size := 4; buffer := cat |}.

Definition cat_url : upload_result :=
  {| secure_url := "https://res.cloudinary.com/demo/mern-uploads/cat.png" |}.

(** The ObjectId a string of 24 hexadecimal digits stands for (twelve zero
    bytes for any other string). *)
Definition oid (s : string) : objectid :=
  default {| byte0 := x00; byte1 := x00; byte2 := x00; byte3 := x00;
             byte4 := x00; byte5 := x00; byte6 := x00; byte7 := x00;
             byte8 := x00; byte9 := x00; byte10 := x00; byte11 := x00 |}
    (of_hex s).

Definition answers (events : list stream_event) (id : string) (now : Z) : outside :=
  {| stream_events := events; ObjectId := oid id; ObjectId_from_12_bytes := false;
     Date_now := now;
     save_fault := None; find_fault := None;
     findById_fault := None; findByIdAndDelete_fault := None |}.

Definition dog_doc : FileDoc :=
  {| _id := oid "65a000000000000000000001"; filename := "dog.png";
     originalName := "dog.png";
     cloudinaryUrl := "https://res.cloudinary.com/demo/mern-uploads/dog.png";
     uploadDate := 1700000000000 |}.

Definition cat_doc : FileDoc :=
  {| _id := oid "65a000000000000000000002"; filename := "cat.png";
     originalName := "cat.png";
     cloudinaryUrl := secure_url cat_url;
     uploadDate := 1700000060000 |}.

Definition one_file : world := {| files := [dog_doc]; calls := [] |}.
Definition two_files : world := {| files := [dog_doc; cat_doc]; calls := [] |}.

(** More bytes than the limit allows. *)
Definition big : list byte := repeat x00 (Z.to_nat (10 * 1024 * 1024 + 1)).

(** The service after two uploads answered in the same millisecond. *)
Definition same_date : world :=
  snd (app ∅ (answers [callback_result cat_url] "65a000000000000000000003" 1700000060000)
         (POST_api_upload form)
         (snd (app ∅ (answers [callback_result cat_url] "65a000000000000000000002"
                        1700000060000)
                 (POST_api_upload form) {| files := []; calls := [] |}))).
End Examples.

(** An environment with the cloud name and nothing else. *)
Definition cloud_name_only : env := {[ "CLOUDINARY_CLOUD_NAME" := "demo" ]}.

(** ** Defaults read at start-up *)

(** [x || d] for [x] read from [process.env]. *)
Definition or_default (x : option string) (d : string) : string :=
  match x with
  | Some s => if truthy x then s else d
  | None => d
  end.

(** [process.env.MONGODB_URI || 'mongodb://localhost:27017/fileupload'] *)
Definition MONGODB_URI (process_env : env) : string :=
  or_default (process_env !! "MONGODB_URI") "mongodb://localhost:27017/fileupload".

(** [process.env.PORT || 5000]: the variable's string, or the number. *)
Definition PORT (process_env : env) : string + Z :=
  if truthy (process_env !! "PORT")
  then match process_env !! "PORT" with Some s => inl s | None => inr 5000 end
  else inr 5000.

(** ** The browser client *)

Module Client.

(** A file chosen in the file input. *)
Record chosen_file := {
  file_name : string;
  file_type : string;
  file_bytes : list byte
}.

(** What axios hands to the component: the response it resolves with, or
    the error it rejects with ([error.response] when the server answered outside
    2xx, [error.request] when the request went out). *)
Record axios_response := { response_status : Z; data : json }.

Record axios_error := {
  error_response : option axios_response;
  error_request : bool;
  error_message : string
}.

Inductive settled :=
| resolved (r : axios_response)
| rejected (error : axios_error)
| pending.

(** The component's four pieces of state. *)
Record App := {
  selectedFile : option chosen_file;
  uploading : bool;
  files : json;
  message : string
}.

Definition initial : App :=
  {| selectedFile := None; uploading := false; files := JArr []; message := "" |}.

Definition setSelectedFile (f : option chosen_file) (s : App) : App :=
  {| selectedFile := f; uploading := uploading s; files := files s; message := message s |}.

Definition setUploading (b : bool) (s : App) : App :=
  {| selectedFile := selectedFile s; uploading := b; files := files s; message := message s |}.

Definition setFiles (j : json) (s : App) : App :=
  {| selectedFile := selectedFile s; uploading := uploading s; files := j; message := message s |}.

Definition setMessage (m : string) (s : App) : App :=
  {| selectedFile := selectedFile s; uploading := uploading s; files := files s; message := m |}.

(** [x || ...] for a value read from a response. *)
Definition json_truthy (v : option json) : bool :=
  match v with
  | None => false
  | Some (JBool b) => b
  | Some (JNum n) => negb (n =? 0)
  | Some (JStr s) => negb (String.eqb s "")
  | Some _ => true
  end.

(** [message.includes(needle)] *)
Definition includes (needle s : string) : bool :=
  match String.index 0 needle s with
  | Some _ => true
  | None => false
  end.

(** The multipart form of an upload: [formData.append('file', selectedFile)]. *)
Definition formData (f : chosen_file) : list part :=
  [ file_field "file" (file_name f) (file_type f) (file_bytes f) ].

Section Component.
(** [axios]: the request goes to whatever is at [API_BASE_URL], in state
    [N]; [API_BASE_URL + '/files'] is the route [GET /api/files], and so
    on.  [toString]: JavaScript's conversion to a string of a value that is
    not one. *)
Context {N : Type}.
Variable axios : request -> N -> settled * N.
Variable toString : json -> string.

(** [`${v}`], and [v] under [+] with a string. *)
Definition template (v : option json) : string :=
  match v with
  | None => "undefined"
  | Some (JStr s) => s
  | Some j => toString j
  end.

Definition testBackendConnection (s : App) (n : N) : App * N :=
  match axios GET_api_test n with
  | (resolved _, n') => (s, n')
  | (rejected _, n') =>
      (setMessage "Cannot connect to backend server. Make sure it's running on port 5000." s, n')
  | (pending, n') => (s, n')
  end.

Definition fetchFiles (s : App) (n : N) : App * N :=
  match axios GET_api_files n with
  | (resolved response, n') => (setFiles (data response) s, n')
  | (rejected _, n') =>
      (setMessage "Error fetching files. Make sure backend is running." s, n')
  | (pending, n') => (s, n')
  end.

(** [event.target.files[0]] is [picked]; nothing, when the dialog was
    cancelled. *)
Definition handleFileSelect (picked : option chosen_file) (s : App) : App :=
  setMessage "" (setSelectedFile picked s).

(** The message for a failed upload. *)
Definition upload_failure (error : axios_error) : string :=
  match error_response error with
  | Some r => "Upload failed: " +:+ template (get "error" (data r))
  | None =>
      if error_request error then "Upload failed: Cannot connect to server"
      else "Upload failed: " +:+ error_message error
  end.

(** [handleUpload]: the list is fetched again without being awaited, so
    [finally] clears the flag before the fetch settles; the state at the end
    is the same.  Emptying the file input in the DOM is not part of the
    state. *)
Definition handleUpload (s : App) (n : N) : App * N :=
  match selectedFile s with
  | None => (setMessage "Please select a file" s, n)
  | Some f =>
      let s := setUploading true s in
      match axios (POST_api_upload (formData f)) n with
      | (resolved _, n') =>
          let s := setMessage "File uploaded successfully!" s in
          let s := setSelectedFile None s in
          fetchFiles (setUploading false s) n'
      | (rejected error, n') =>
          (setUploading false (setMessage (upload_failure error) s), n')
      | (pending, n') => (s, n')
      end
  end.

(** [error.response?.data?.error || error.message] *)
Definition delete_failure (error : axios_error) : string :=
  let reported :=
    match error_response error with
    | Some r => get "error" (data r)
    | None => None
    end in
  if json_truthy reported then template reported else error_message error.

(** [handleDelete(fileId)]; [confirmed] is the answer to [window.confirm]. *)
Definition handleDelete (confirmed : bool) (fileId : option json) (s : App) (n : N)
    : App * N :=
  if negb confirmed then (s, n)
  else
    match axios (DELETE_api_files (template fileId)) n with
    | (resolved _, n') => fetchFiles (setMessage "File deleted successfully" s) n'
    | (rejected error, n') =>
        (setMessage ("Delete failed: " +:+ delete_failure error) s, n')
    | (pending, n') => (s, n')
    end.
End Component.

(** *** What is rendered *)

(** [disabled={!selectedFile || uploading}] *)
Definition upload_disabled (s : App) : bool :=
  negb (bool_decide (is_Some (selectedFile s))) || uploading s.

Definition upload_label (s : App) : string :=
  if uploading s then "Uploading..." else "Upload File".

(** The message box: absent for an empty message; its class says success
    when the text has "success" in it. *)
Definition banner (s : App) : option (string * string) :=
  if String.eqb (message s) "" then None
  else Some (if includes "success" (message s) then "message success" else "message error",
             message s).

(** A card of the grid, with the value its delete button passes on (the line
    with the date, which depends on the locale, is left out). *)
Record card := {
  key : option json;
  image_src : option json;
  image_alt : option json;
  heading : option json;
  delete_id : option json
}.

Definition file_card (file : json) : card :=
  {| key := get "_id" file;
     image_src := get "cloudinaryUrl" file;
     image_alt := get "filename" file;
     heading := get "originalName" file;
     delete_id := get "_id" file |}.

(** The grid, for a state that holds an array. *)
Definition file_cards (s : App) : option (list card) :=
  match files s with
  | JArr items => Some (file_card <$> items)
  | _ => None
  end.

End Client.

(** ** The client against the server *)

(** The body as axios parses it: JSON, or the text of a page. *)
Definition parsed (b : payload) : json :=
  match b with
  | json_body j => j
  | error_page text => JStr text
  end.

(** axios resolves on a status from 200 to 299 and rejects on any other;
    without an answer the promise stays pending. *)
Definition axios_settles (answer : outcome response) : Client.settled :=
  match answer with
  | Returned r =>
      let response :=
        {| Client.response_status := status r; Client.data := parsed (body r) |} in
      if (200 <=? status r) && (status r <? 300) then Client.resolved response
      else Client.rejected
             {| Client.error_response := Some response; Client.error_request := true;
                Client.error_message :=
                  "Request failed with status code " +:+ pretty (status r) |}
  | Thrown _ => Client.pending
  | Hangs => Client.pending
  end.

(** The server behind axios.  The state is the server's world with what is
    to come for the next requests: [Some o] when the request reaches the
    server, which then meets the outside [o]; otherwise the request goes out
    and nothing comes back. *)
Definition server (process_env : env) (req : request)
    (n : world * list (option outside))
    : Client.settled * (world * list (option outside)) :=
  match n.2 with
  | Some o :: rest =>
      let (answer, w) := app process_env o req n.1 in (axios_settles answer, (w, rest))
  | _ =>
      (Client.rejected {| Client.error_response := None; Client.error_request := true;
                          Client.error_message := "Network Error" |},
       (n.1, tail n.2))
  end.

(** The chosen file as multer hands it to the handler. *)
Definition received (f : Client.chosen_file) : multer_file :=
  {| fieldname := "file"; originalname := latin1 (basename (Client.file_name f));
     mimetype := Client.file_type f;
     size := Z.of_nat (length (Client.file_bytes f));
     buffer := Client.file_bytes f |}.

(** A route that only reads. *)
Definition is_get (req : request) : bool :=
  match req with
  | GET_api_test | GET_api_files | GET_health => true
  | POST_api_upload _ | DELETE_api_files _ => false
  end.

(** * Properties *)

(** ** Running a route *)

Ltac run :=
  cbv beta iota delta
    [ api_test api_upload api_upload_handler api_files api_files_delete health
      upload_to_cloudinary save find_sorted findById findByIdAndDelete
      cast_id try_catch await or_reject log_call throw hang get_files put_files
      mbind mret async_bind async_ret ].

(** Closing a case of what the page shows after an upload. *)
Ltac page_outcome :=
  intros ->;
  unfold Client.fetchFiles, Client.setUploading, Client.setMessage,
    Client.setSelectedFile, Client.setFiles, Client.banner;
  cbn;
  first
    [ left; split; reflexivity
    | right; left; split; reflexivity
    | right; right; split; [reflexivity|]; eexists; split; [|reflexivity];
      first [ left | right; left | right; right; left | right; right; right; left
            | right; right; right; right; left ] ].

(** ** ObjectIds *)

Lemma bytes_of_hex_of_byte b rest :
  bytes_of_hex (hex_of_byte b +:+ rest) =
    match bytes_of_hex rest with Some l => Some (b :: l) | None => None end.
Proof. destruct b; reflexivity. Qed.

Lemma bytes_of_hex_of_bytes l : bytes_of_hex (hex_of_bytes l) = Some l.
Proof.
  induction l as [|b l IH]; [reflexivity|].
  cbn [hex_of_bytes]. rewrite bytes_of_hex_of_byte, IH. reflexivity.
Qed.

Lemma of_hex_toHexString i : of_hex (toHexString i) = Some i.
Proof.
  unfold of_hex, toHexString. rewrite bytes_of_hex_of_bytes. destruct i; reflexivity.
Qed.

(** The id a document is listed with casts back to the document's id, for
    every version of the driver. *)
Lemma castObjectId_toHexString from_12_bytes i :
  castObjectId from_12_bytes (toHexString i) = Some i.
Proof. unfold castObjectId. rewrite of_hex_toHexString. reflexivity. Qed.

Lemma toHexString_inj i j : toHexString i = toHexString j -> i = j.
Proof.
  intros H. pose proof (of_hex_toHexString i) as Hi.
  rewrite H, of_hex_toHexString in Hi. congruence.
Qed.

(** ** The promise of the upload *)

Lemma settled_stays (p : promise upload_result) events :
  p <> Unsettled -> fold_left on_event events p = p.
Proof.
  revert p. induction events as [|ev events IH]; intros p Hp; [reflexivity|].
  cbn [fold_left]. destruct p; [congruence| |]; cbn [on_event]; apply IH; congruence.
Qed.

Lemma upload_promise_first ev events :
  upload_promise (ev :: events) = on_event Unsettled ev.
Proof.
  unfold upload_promise. cbn [fold_left]. apply settled_stays.
  destruct ev; discriminate.
Qed.

(** X1. The promise around [upload_stream] rejects exactly when the first
    thing reported is an error: of the callback, with the message
    "Cloudinary error: ..."; of the stream, with "Stream error: ..."; or an
    exception thrown while the executor runs, with the exception's own
    message.  What is reported afterwards does not count. *)
Lemma upload_promise_rejected events message :
  upload_promise events = Rejected message <->
  exists m rest,
    (events = callback_error m :: rest /\ message = "Cloudinary error: " +:+ m) \/
    (events = stream_error m :: rest /\ message = "Stream error: " +:+ m) \/
    (events = executor_throws m :: rest /\ message = m).
Proof.
  destruct events as [|ev rest].
  - split; [discriminate|]. intros (m & r & [[? _]|[[? _]|[? _]]]); discriminate.
  - rewrite upload_promise_first. split.
    + destruct ev as [m|r|m|m]; cbn [on_event]; intros H; [|discriminate| |];
        injection H as <-; exists m, rest;
        [left | right; left | right; right]; split; reflexivity.
    + intros (m & r & [[H ->]|[[H ->]|[H ->]]]); injection H as -> _; reflexivity.
Qed.

Lemma upload_promise_fulfilled events result :
  upload_promise events = Fulfilled result <->
  exists rest, events = callback_result result :: rest.
Proof.
  destruct events as [|ev rest].
  - split; [discriminate|]. intros (r & ?); discriminate.
  - rewrite upload_promise_first. split.
    + destruct ev as [m|r|m|m]; cbn [on_event]; intros H; try discriminate.
      injection H as <-. exists rest. reflexivity.
    + intros (r & H). injection H as -> _. reflexivity.
Qed.

(** ** multer *)



(** An accepted file is a file of the body under the requested name, below
    the limit, with its content as buffer and its name as the parser reads
    it. *)
Lemma single_from_accepts m name parts : forall got file,
  single_from m name got parts = inr (Some file) ->
  got = Some file \/
  (exists original,
     file_field name original (mimetype file) (buffer file) ∈ parts /\
     basename original <> "" /\
     originalname file = latin1 (basename original) /\
     fieldname file = name /\
     size file = Z.of_nat (length (buffer file)) /\
     size file < fileSize m).
Proof.
  induction parts as [|p parts IH]; intros got file; cbn [single_from].
  - intros [= ->]. left; reflexivity.
  - destruct p as [n v|field original mime content].
    + intros H. destruct (IH _ _ H) as [->|(orig & Hin & ?)]; [left; reflexivity|].
      right. exists orig. split; [right; exact Hin | assumption].
    + destruct (String.eqb_spec (basename original) "") as [Hempty|Hnamed].
      { intros H. destruct (IH _ _ H) as [->|(orig & Hin & ?)]; [left; reflexivity|].
        right. exists orig. split; [right; exact Hin | assumption]. }
      destruct (String.eqb_spec field name) as [->|]; cbn [negb]; [|discriminate].
      destruct got; [discriminate|].
      destruct (Z.leb_spec (fileSize m) (Z.of_nat (length content))) as [|Hlt];
        [discriminate|].
      intros Hrest. right. destruct (IH _ _ Hrest) as [[= <-]|(orig & Hin & ?)].
      * exists original. cbn. split; [left|]; auto.
      * exists orig. split; [right; exact Hin | assumption].
Qed.

Lemma single_accepts name parts file :
  single upload name parts = inr (Some file) ->
  (exists original,
     file_field name original (mimetype file) (buffer file) ∈ parts /\
     originalname file = latin1 (basename original)) /\
  size file < 10 * 1024 * 1024.
Proof.
  intros H. destruct (single_from_accepts _ _ _ _ _ H) as [|(orig & ? & _ & ? & _ & _ & ?)];
    [discriminate | eauto].
Qed.

(** A plain file name is kept as it is. *)
Lemma plain_chars_no_separator s :
  plain_chars s = true -> after_last_separator s = None.
Proof.
  induction s as [|c rest IH]; [reflexivity|].
  cbn [plain_chars after_last_separator]. intros H.
  apply andb_prop in H as [Hc Hrest]. rewrite (IH Hrest).
  destruct c as [[] [] [] [] [] [] [] []]; try discriminate Hc; reflexivity.
Qed.

Lemma plain_chars_latin1 s : plain_chars s = true -> latin1 s = s.
Proof.
  induction s as [|c rest IH]; [reflexivity|].
  cbn [plain_chars latin1]. intros H.
  apply andb_prop in H as [Hc Hrest]. rewrite (IH Hrest).
  destruct c as [[] [] [] [] [] [] [] []]; try discriminate Hc; reflexivity.
Qed.

Lemma plain_name_kept s :
  plain_name s = true -> basename s = s /\ s <> "" /\ latin1 (basename s) = s.
Proof.
  unfold plain_name. intros H.
  apply andb_prop in H as [H Hdotdot]. apply andb_prop in H as [H Hdot].
  apply andb_prop in H as [Hchars Hempty].
  assert (Hbase : basename s = s).
  { unfold basename. rewrite (plain_chars_no_separator s Hchars). cbn [default].
    destruct (String.eqb s "."); [discriminate|].
    destruct (String.eqb s ".."); [discriminate|]. reflexivity. }
  split; [exact Hbase|]. split.
  - destruct (String.eqb_spec s ""); [discriminate | assumption].
  - rewrite Hbase. apply plain_chars_latin1, Hchars.
Qed.

(** ** Sorting newest first *)

Lemma insert_desc_Permutation d l : insert_desc d l ≡ₚ d :: l.
Proof.
  induction l as [|x rest IH]; cbn [insert_desc]; [reflexivity|].
  destruct (uploadDate x <=? uploadDate d); [reflexivity|].
  rewrite IH. apply perm_swap.
Qed.

Lemma sort_uploadDate_desc_Permutation l : sort_uploadDate_desc l ≡ₚ l.
Proof.
  induction l as [|d rest IH]; cbn [sort_uploadDate_desc]; [reflexivity|].
  rewrite insert_desc_Permutation, IH. reflexivity.
Qed.

Lemma insert_desc_sorted d l :
  StronglySorted newest_first l -> StronglySorted newest_first (insert_desc d l).
Proof.
  induction 1 as [|x rest Hsorted IH Hx]; cbn [insert_desc].
  - constructor; constructor.
  - destruct (Z.leb_spec (uploadDate x) (uploadDate d)) as [Hle|Hlt].
    + constructor; [constructor; assumption|].
      constructor; [exact Hle|].
      eapply Forall_impl; [exact Hx|]. unfold newest_first. intros y Hy. lia.
    + constructor; [exact IH|].
      rewrite insert_desc_Permutation. constructor; [|exact Hx].
      unfold newest_first. lia.
Qed.

Lemma sort_uploadDate_desc_sorted l :
  StronglySorted newest_first (sort_uploadDate_desc l).
Proof.
  induction l as [|d rest IH]; cbn [sort_uploadDate_desc].
  - constructor.
  - apply insert_desc_sorted, IH.
Qed.

(** X12. Where no two documents have the same date, the order of a listing
    is strict: every document is listed before all older ones. *)
Lemma sort_uploadDate_desc_strict l :
  NoDup (uploadDate <$> l) ->
  StronglySorted (fun a b => uploadDate b < uploadDate a) (sort_uploadDate_desc l).
Proof.
  intros Hnodup.
  assert (Hdates : NoDup (uploadDate <$> sort_uploadDate_desc l)).
  { rewrite sort_uploadDate_desc_Permutation. exact Hnodup. }
  pose proof (sort_uploadDate_desc_sorted l) as Hsorted.
  induction Hsorted as [|x rest Hsorted IH Hx]; [constructor|].
  cbn [fmap list_fmap] in Hdates. apply NoDup_cons in Hdates as [Hfresh Hrest].
  constructor; [apply IH, Hrest|].
  apply Forall_forall. intros y Hy.
  assert (uploadDate y <= uploadDate x) by (rewrite Forall_forall in Hx; apply Hx, Hy).
  assert (uploadDate y <> uploadDate x).
  { intros Heq. apply Hfresh. rewrite <- Heq.
    apply list_elem_of_fmap_2. exact Hy. }
  lia.
Qed.

(** ** Looking a document up and removing it *)

Lemma lookup_id_None id l : lookup_id id l = None <-> id ∉ _id <$> l.
Proof.
  induction l as [|d rest IH]; cbn [lookup_id fmap list_fmap].
  - split; [intros _ Hin; inversion Hin | reflexivity].
  - rewrite not_elem_of_cons. case_bool_decide as Heq.
    + split; [discriminate | intros [Hne _]; congruence].
    + rewrite IH. split; [intros H; split; [congruence | exact H] | intros [_ H]; exact H].
Qed.

Lemma lookup_id_Some id l d :
  lookup_id id l = Some d -> d ∈ l /\ _id d = id.
Proof.
  induction l as [|x rest IH]; cbn [lookup_id]; [discriminate|].
  case_bool_decide as Heq.
  - intros [= ->]. split; [left | exact Heq].
  - intros H. destruct (IH H). split; [right|]; assumption.
Qed.

Lemma lookup_id_is_Some id l :
  id ∈ _id <$> l -> exists d, lookup_id id l = Some d.
Proof.
  intros Hin. destruct (lookup_id id l) as [d|] eqn:E; [eauto|].
  apply lookup_id_None in E. contradiction.
Qed.

(** Removing takes out the document that the lookup finds, and no other. *)
Lemma remove_id_split id l d :
  lookup_id id l = Some d ->
  exists before after : list FileDoc,
    l = before ++ d :: after /\ remove_id id l = before ++ after /\
    id ∉ _id <$> before.
Proof.
  induction l as [|x rest IH]; cbn [lookup_id remove_id]; [discriminate|].
  case_bool_decide as Heq.
  - intros [= ->]. exists [], rest. repeat split. cbn. apply not_elem_of_nil.
  - intros H. destruct (IH H) as (before & after & -> & -> & Hfresh).
    exists (x :: before), after. repeat split. cbn [fmap list_fmap].
    rewrite not_elem_of_cons. split; [congruence | exact Hfresh].
Qed.

Lemma remove_id_absent id l : id ∉ _id <$> l -> remove_id id l = l.
Proof.
  induction l as [|x rest IH]; cbn [remove_id fmap list_fmap]; [reflexivity|].
  rewrite not_elem_of_cons. intros [Hne Hrest].
  case_bool_decide; [congruence|]. rewrite IH; auto.
Qed.

Lemma remove_id_gone id l :
  NoDup (_id <$> l) -> id ∉ _id <$> remove_id id l.
Proof.
  induction l as [|x rest IH]; cbn [remove_id fmap list_fmap].
  - intros _. apply not_elem_of_nil.
  - intros Hnodup. apply NoDup_cons in Hnodup as [Hfresh Hrest].
    case_bool_decide as Heq; [rewrite <- Heq; exact Hfresh|].
    cbn [fmap list_fmap]. rewrite not_elem_of_cons. split; [congruence | apply IH, Hrest].
Qed.

Lemma remove_id_others id l d :
  _id d <> id -> d ∈ remove_id id l <-> d ∈ l.
Proof.
  intros Hne. induction l as [|x rest IH]; cbn [remove_id]; [reflexivity|].
  case_bool_decide as Heq.
  - rewrite elem_of_cons. split; [auto|]. intros [->|]; [congruence | assumption].
  - rewrite !elem_of_cons, IH. reflexivity.
Qed.

Lemma remove_id_NoDup id l :
  NoDup (_id <$> l) -> NoDup (_id <$> remove_id id l).
Proof.
  induction l as [|x rest IH]; cbn [remove_id fmap list_fmap]; [auto|].
  intros Hnodup. apply NoDup_cons in Hnodup as [Hfresh Hrest].
  case_bool_decide as Hx; [exact Hrest|].
  cbn [fmap list_fmap]. apply NoDup_cons. split; [|apply IH, Hrest].
  intros Hin. apply Hfresh.
  apply list_elem_of_fmap in Hin as (y & Hy & Hin).
  apply list_elem_of_fmap. exists y. split; [exact Hy|].
  destruct (decide (_id y = id)) as [Heq|Hne].
  - exfalso. subst id. apply (remove_id_gone (_id y) rest Hrest).
    apply list_elem_of_fmap_2. exact Hin.
  - apply (remove_id_others id rest y Hne). exact Hin.
Qed.

(** ** Uploading *)

(** What an upload does to the collection: nothing, or one new document, made
    of the accepted file's name and the URL Cloudinary answered with, under an
    [_id] no other document has. *)
Lemma api_upload_files o body w :
  files (snd (api_upload o body w)) = files w \/
  exists file result,
    single upload "file" body = inr (Some file) /\
    upload_promise (stream_events o) = Fulfilled result /\
    (ObjectId o ∉ ids w) /\
    files (snd (api_upload o body w)) =
      files w ++ [new_File o (originalname file) (originalname file) (secure_url result)].
Proof.
  unfold api_upload.
  destruct (single upload "file" body) as [e|[file|]] eqn:Hsingle; [left; reflexivity | | left; reflexivity].
  run. cbn [files calls].
  destruct (upload_promise (stream_events o)) as [|result|message] eqn:Hpromise;
    [left; reflexivity | | left; reflexivity].
  destruct (save_fault o); [left; reflexivity|].
  cbn [_id new_File]. case_bool_decide as Hid; [left; reflexivity|].
  right. exists file, result. repeat split. exact Hid.
Qed.

(** C1. When the upload to Cloudinary fails (the callback reports an error,
    or the stream emits one, before any result), the route answers 500 with
    the error's message, and the collection is as it was: the only thing the
    request did is the call to Cloudinary. *)
Theorem upload_storage_failure_persists_nothing o body file message w :
  single upload "file" body = inr (Some file) ->
  upload_promise (stream_events o) = Rejected message ->
  let r := res_status_json 500 (JObj [ ("error", JStr "Upload failed");
                                       ("details", JStr message) ]) in
  api_upload o body w =
    (Returned r,
     {| files := files w;
        calls := calls w ++ [cloudinary_upload_stream "auto" "mern-uploads" (buffer file)] |})
  /\ server_error r.
Proof.
  intros Hfile Hrejected. unfold api_upload. rewrite Hfile. run. rewrite Hrejected.
  split; [reflexivity|]. unfold server_error. cbn. lia.
Qed.

Lemma upload_storage_failure_persists_nothing_witness :
  api_upload (Examples.answers [stream_error "socket hang up"] "65a000000000000000000002" 1700000060000)
    Examples.form Examples.one_file =
    (Returned (res_status_json 500 (JObj [ ("error", JStr "Upload failed");
                                           ("details", JStr "Stream error: socket hang up") ])),
     {| files := [Examples.dog_doc];
        calls := [cloudinary_upload_stream "auto" "mern-uploads" Examples.cat] |})
  /\ server_error (res_status_json 500 (JObj [ ("error", JStr "Upload failed");
                                               ("details", JStr "Stream error: socket hang up") ])).
Proof.
  apply (upload_storage_failure_persists_nothing
           (Examples.answers [stream_error "socket hang up"] "65a000000000000000000002" 1700000060000)
           Examples.form Examples.cat_file "Stream error: socket hang up" Examples.one_file);
    reflexivity.
Defined.

(** When the write to MongoDB fails, the answer is 500 with the error's
    message and the collection is as it was; the call to Cloudinary has been
    made. *)
Lemma upload_save_failure o body file result message w :
  single upload "file" body = inr (Some file) ->
  upload_promise (stream_events o) = Fulfilled result ->
  save_fault o = Some message ->
  fst (api_upload o body w) =
    Returned (res_status_json 500 (JObj [ ("error", JStr "Upload failed");
                                          ("details", JStr message) ]))
  /\ files (snd (api_upload o body w)) = files w
  /\ cloudinary_upload_stream "auto" "mern-uploads" (buffer file)
       ∈ calls (snd (api_upload o body w)).
Proof.
  intros Hfile Hfulfilled Hsave. unfold api_upload. rewrite Hfile. run.
  rewrite Hfulfilled, Hsave. cbn. repeat split.
  apply elem_of_app. left. apply elem_of_app. right. left.
Qed.

(** When the stream reports nothing, the promise never settles and the
    request is never answered; the collection is as it was. *)
Lemma upload_never_answered o body file w :
  single upload "file" body = inr (Some file) ->
  stream_events o = [] ->
  fst (api_upload o body w) = Hangs
  /\ files (snd (api_upload o body w)) = files w.
Proof.
  intros Hfile Hnone. unfold api_upload. rewrite Hfile. run. rewrite Hnone.
  split; reflexivity.
Qed.





(** C7. When multer accepts a file, Cloudinary answers with a result and the
    document is saved, the route answers 200 with the new document's id, its
    filename (the upload's original name), its URL (the [secure_url] of
    Cloudinary's result) and its date; the document is the collection's
    newest entry. *)
Theorem upload_success_response o body file result w :
  single upload "file" body = inr (Some file) ->
  upload_promise (stream_events o) = Fulfilled result ->
  save_fault o = None ->
  ObjectId o ∉ ids w ->
  let fileDoc :=
    {| _id := ObjectId o; filename := originalname file;
       originalName := originalname file; cloudinaryUrl := secure_url result;
       uploadDate := Date_now o |} in
  api_upload o body w =
    (Returned
       (res_json
          (JObj [ ("message", JStr "File uploaded successfully");
                  ("file", JObj [ ("id", JStr (ObjectId o));
                                  ("filename", JStr (originalname file));
                                  ("url", JStr (secure_url result));
                                  ("uploadDate", JDate (Date_now o)) ]) ])),
     {| files := files w ++ [fileDoc];
        calls := calls w ++ [ cloudinary_upload_stream "auto" "mern-uploads" (buffer file);
                              File_save fileDoc ] |}).
Proof.
  intros Hfile Hfulfilled Hsave Hfresh. unfold api_upload. rewrite Hfile. run.
  rewrite Hfulfilled, Hsave. cbn [files calls _id new_File].
  rewrite bool_decide_eq_false_2 by exact Hfresh.
  cbn. rewrite <- app_assoc. reflexivity.
Qed.

Lemma upload_success_response_witness :
  api_upload (Examples.answers [callback_result Examples.cat_url] "65a000000000000000000002" 1700000060000)
    Examples.form Examples.one_file =
    (Returned
       (res_json
          (JObj [ ("message", JStr "File uploaded successfully");
                  ("file", JObj [ ("id", JStr "65a000000000000000000002");
                                  ("filename", JStr "cat.png");
                                  ("url", JStr "https://res.cloudinary.com/demo/mern-uploads/cat.png");
                                  ("uploadDate", JDate 1700000060000) ]) ])),
     {| files := [Examples.dog_doc; Examples.cat_doc];
        calls := [ cloudinary_upload_stream "auto" "mern-uploads" Examples.cat;
                   File_save Examples.cat_doc ] |}).
Proof.
  apply (upload_success_response
           (Examples.answers [callback_result Examples.cat_url] "65a000000000000000000002" 1700000060000)
           Examples.form Examples.cat_file Examples.cat_url Examples.one_file);
    [reflexivity | reflexivity | reflexivity |].
  vm_compute. intros Hin. apply list_elem_of_singleton in Hin. discriminate.
Defined.

(** C9. A document that an upload adds to the collection has the accepted
    file's original name in both [filename] and [originalName]. *)
Theorem persisted_names_are_the_original_name o body w d :
  d ∈ files (snd (api_upload o body w)) ->
  d ∉ files w ->
  exists file,
    single upload "file" body = inr (Some file)
    /\ filename d = originalname file
    /\ originalName d = originalname file.
Proof.
  intros Hafter Hbefore.
  destruct (api_upload_files o body w) as [Hsame|(file & result & Hfile & _ & _ & Hnew)].
  - rewrite Hsame in Hafter. contradiction.
  - rewrite Hnew in Hafter. apply elem_of_app in Hafter as [Hold|Hd]; [contradiction|].
    apply list_elem_of_singleton in Hd as ->. exists file. repeat split. exact Hfile.
Qed.

Lemma persisted_names_are_the_original_name_witness :
  exists file,
    single upload "file" Examples.form = inr (Some file)
    /\ filename Examples.cat_doc = originalname file
    /\ originalName Examples.cat_doc = originalname file.
Proof.
  apply (persisted_names_are_the_original_name
           (Examples.answers [callback_result Examples.cat_url] "65a000000000000000000002" 1700000060000)
           Examples.form Examples.one_file Examples.cat_doc).
  - vm_compute. right. left.
  - vm_compute. intros Hin. apply list_elem_of_singleton in Hin. discriminate.
Defined.

(** ** Listing *)

Lemma api_files_runs o w :
  find_fault o = None ->
  api_files o w =
    (Returned (res_json (JArr (toJSON <$> sort_uploadDate_desc (files w)))),
     {| files := files w; calls := calls w ++ [File_find] |}).
Proof. intros Hfind. run. rewrite Hfind. reflexivity. Qed.

Lemma api_files_files o w : files (snd (api_files o w)) = files w.
Proof. run. destruct (find_fault o); reflexivity. Qed.

(** X11. The dates of a listing, in the order listed, do not depend on the
    order in which the documents were inserted. *)
Lemma listing_dates_ignore_insertion_order (l l' : list FileDoc) :
  l ≡ₚ l' ->
  uploadDate <$> sort_uploadDate_desc l = uploadDate <$> sort_uploadDate_desc l'.
Proof.
  intros Hperm.
  assert (Hdates : forall k, StronglySorted (fun x y => y <= x)
                               (uploadDate <$> sort_uploadDate_desc k)).
  { intros k. pose proof (sort_uploadDate_desc_sorted k) as Hsorted.
    induction Hsorted as [|x rest _ IH Hx]; cbn [fmap list_fmap]; constructor.
    - exact IH.
    - apply Forall_fmap. exact Hx. }
  pose proof (Hdates l) as Hl. pose proof (Hdates l') as Hl'.
  assert (Hp : uploadDate <$> sort_uploadDate_desc l ≡ₚ uploadDate <$> sort_uploadDate_desc l').
  { rewrite !sort_uploadDate_desc_Permutation, Hperm. reflexivity. }
  revert Hl Hl' Hp.
  generalize (uploadDate <$> sort_uploadDate_desc l) as a,
             (uploadDate <$> sort_uploadDate_desc l') as b.
  induction a as [|x a IH]; intros b Ha Hb Hp.
  - apply Permutation_nil_l in Hp. congruence.
  - destruct b as [|y b]; [apply Permutation_nil_r in Hp; discriminate|].
    apply StronglySorted_inv in Ha as [Ha Hx]. apply StronglySorted_inv in Hb as [Hb Hy].
    assert (x = y) as <-.
    { assert (Hxin : x ∈ y :: b) by (rewrite <- Hp; left).
      assert (Hyin : y ∈ x :: a) by (rewrite Hp; left).
      rewrite Forall_forall in Hx, Hy.
      apply elem_of_cons in Hxin as [|Hxin]; [assumption|].
      apply elem_of_cons in Hyin as [|Hyin]; [congruence|].
      specialize (Hx _ Hyin). specialize (Hy _ Hxin). lia. }
    f_equal. apply IH; [assumption | assumption |].
    eapply Permutation_cons_inv. exact Hp.
Qed.

Lemma sorted_of_distinct_dates_is_strict (l : list FileDoc) :
  StronglySorted newest_first l ->
  NoDup (uploadDate <$> l) ->
  StronglySorted strictly_newest_first l.
Proof.
  induction 1 as [|x rest Hsorted IH Hx]; intros Hdates; [constructor|].
  cbn [fmap list_fmap] in Hdates. apply NoDup_cons in Hdates as [Hfresh Hrest].
  constructor; [apply IH, Hrest|].
  apply Forall_forall. intros y Hy. unfold strictly_newest_first.
  assert (uploadDate y <= uploadDate x) by (rewrite Forall_forall in Hx; apply Hx, Hy).
  assert (uploadDate y <> uploadDate x).
  { intros Heq. apply Hfresh. rewrite <- Heq. apply list_elem_of_fmap_2. exact Hy. }
  lia.
Qed.

(** C2, as the claim states it, fails: after two uploads answered in the
    same millisecond the collection holds two documents of the same date,
    and no listing of the two is in strictly descending order of date. *)
Lemma listing_of_equal_dates_is_not_strict :
  reachable ∅ Examples.same_date
  /\ length (files Examples.same_date) = 2%nat
  /\ ~ exists found,
        fst (api_files (Examples.answers [] "" 1700000120000) Examples.same_date) =
          Returned (res_json (JArr (toJSON <$> found)))
        /\ found ≡ₚ files Examples.same_date
        /\ StronglySorted strictly_newest_first found.
Proof.
  split; [apply after_request, after_request, at_start|]. split; [reflexivity|].
  intros (found & _ & Hperm & Hsorted).
  assert (Hdates : Forall (fun d => uploadDate d = 1700000060000) found).
  { rewrite Hperm. repeat constructor. }
  pose proof (Permutation_length Hperm) as Hlength.
  destruct found as [|x [|y rest]]; [discriminate Hlength | discriminate Hlength |].
  apply StronglySorted_inv in Hsorted as [_ Hx].
  apply Forall_cons in Hx as [Hxy _]. unfold strictly_newest_first in Hxy.
  apply Forall_cons in Hdates as [Hdx Hdates]. apply Forall_cons in Hdates as [Hdy _].
  lia.
Qed.

(** C2, amended. When the query succeeds, the listing is the whole
    collection (a permutation of it: nothing left out, nothing added), each
    document sent with its own id, names, URL and date, ordered by
    [uploadDate] with the newest first: no document comes after an older
    one, whatever the order of insertion, and the order is strict when no
    two documents have the same date.  The collection itself is as it
    was. *)
Theorem list_returns_all_newest_first o w :
  find_fault o = None ->
  exists found,
    api_files o w =
      (Returned (res_json (JArr (toJSON <$> found))),
       {| files := files w; calls := calls w ++ [File_find] |})
    /\ found ≡ₚ files w
    /\ StronglySorted newest_first found
    /\ (NoDup (uploadDate <$> files w) -> StronglySorted strictly_newest_first found)
    /\ forall d, d ∈ found ->
         get "_id" (toJSON d) = Some (JStr (_id d))
         /\ get "filename" (toJSON d) = Some (JStr (filename d))
         /\ get "originalName" (toJSON d) = Some (JStr (originalName d))
         /\ get "cloudinaryUrl" (toJSON d) = Some (JStr (cloudinaryUrl d))
         /\ get "uploadDate" (toJSON d) = Some (JDate (uploadDate d)).
Proof.
  intros Hfind. exists (sort_uploadDate_desc (files w)).
  split; [apply api_files_runs, Hfind|].
  split; [apply sort_uploadDate_desc_Permutation|].
  split; [apply sort_uploadDate_desc_sorted|]. split.
  - intros Hdates. apply sorted_of_distinct_dates_is_strict.
    + apply sort_uploadDate_desc_sorted.
    + rewrite sort_uploadDate_desc_Permutation. exact Hdates.
  - intros d _. repeat split.
Qed.

Lemma list_returns_all_newest_first_witness :
  exists found,
    api_files (Examples.answers [] "" 1700000120000) Examples.two_files =
      (Returned (res_json (JArr (toJSON <$> found))),
       {| files := [Examples.dog_doc; Examples.cat_doc]; calls := [File_find] |})
    /\ found ≡ₚ [Examples.dog_doc; Examples.cat_doc]
    /\ StronglySorted newest_first found
    /\ (NoDup (uploadDate <$> [Examples.dog_doc; Examples.cat_doc]) ->
        StronglySorted strictly_newest_first found)
    /\ forall d, d ∈ found ->
         get "_id" (toJSON d) = Some (JStr (_id d))
         /\ get "filename" (toJSON d) = Some (JStr (filename d))
         /\ get "originalName" (toJSON d) = Some (JStr (originalName d))
         /\ get "cloudinaryUrl" (toJSON d) = Some (JStr (cloudinaryUrl d))
         /\ get "uploadDate" (toJSON d) = Some (JDate (uploadDate d)).
Proof.
  apply (list_returns_all_newest_first
           (Examples.answers [] "" 1700000120000) Examples.two_files).
  reflexivity.
Defined.

Example listing_two_files :
  fst (api_files (Examples.answers [] "" 1700000120000) Examples.two_files) =
  Returned (res_json (JArr [toJSON Examples.cat_doc; toJSON Examples.dog_doc])).
Proof. reflexivity. Qed.

(** C10, as the claim states it, fails: a listed document has a sixth
    field, the version key [__v], besides the five the claim names. *)
Lemma listed_document_has_a_sixth_field :
  fst (api_files (Examples.answers [] "" 1700000120000) Examples.one_file) =
    Returned (res_json (JArr [toJSON Examples.dog_doc]))
  /\ get "__v" (toJSON Examples.dog_doc) = Some (JNum 0)
  /\ ~ has_keys ["_id"; "filename"; "originalName"; "cloudinaryUrl"; "uploadDate"]
        (toJSON Examples.dog_doc).
Proof.
  split; [reflexivity|]. split; [reflexivity|].
  intros Hkeys. specialize (Hkeys "__v"). destruct Hkeys as [Hkeys _].
  assert (Hin : "__v" ∈ ["_id"; "filename"; "originalName"; "cloudinaryUrl"; "uploadDate"]).
  { apply Hkeys. cbn. repeat first [ left; reflexivity | right ]. }
  repeat (apply elem_of_cons in Hin as [Hin|Hin]; [discriminate Hin|]).
  inversion Hin.
Qed.

(** C10, amended. An upload that succeeds answers with the new document
    under the keys [id], [filename], [url], [uploadDate].  A listing after it
    sends every stored document as it is stored, under the keys [_id],
    [filename], [originalName], [cloudinaryUrl], [uploadDate] and [__v]; the
    new document is among them, with the same id, filename, URL and date as
    in the upload's answer, its [originalName], and [__v] at 0. *)
Theorem listing_shape_differs_from_upload_shape o o' body file result w :
  single upload "file" body = inr (Some file) ->
  upload_promise (stream_events o) = Fulfilled result ->
  save_fault o = None ->
  ObjectId o ∉ ids w ->
  find_fault o' = None ->
  exists sent items listed,
    fst (api_upload o body w) =
      Returned (res_json (JObj [ ("message", JStr "File uploaded successfully");
                                 ("file", sent) ]))
    /\ keys sent = ["id"; "filename"; "url"; "uploadDate"]
    /\ get "id" sent = Some (JStr (ObjectId o))
    /\ get "filename" sent = Some (JStr (originalname file))
    /\ get "url" sent = Some (JStr (secure_url result))
    /\ get "uploadDate" sent = Some (JDate (Date_now o))
    /\ fst (api_files o' (snd (api_upload o body w))) = Returned (res_json (JArr items))
    /\ length items = S (length (files w))
    /\ (forall item, item ∈ items ->
          has_keys ["_id"; "filename"; "originalName"; "cloudinaryUrl"; "uploadDate"; "__v"]
            item)
    /\ listed ∈ items
    /\ get "_id" listed = get "id" sent
    /\ get "filename" listed = get "filename" sent
    /\ get "cloudinaryUrl" listed = get "url" sent
    /\ get "uploadDate" listed = get "uploadDate" sent
    /\ get "originalName" listed = Some (JStr (originalname file))
    /\ get "__v" listed = Some (JNum 0).
Proof.
  intros Hfile Hfulfilled Hsave Hfresh Hfind.
  set (doc := new_File o (originalname file) (originalname file) (secure_url result)).
  assert (Hupload : api_upload o body w =
            (Returned (res_json (uploaded doc)),
             {| files := files w ++ [doc];
                calls := (calls w ++
                          [cloudinary_upload_stream "auto" "mern-uploads" (buffer file)]) ++
                         [File_save doc] |})).
  { unfold api_upload. rewrite Hfile. run. rewrite Hfulfilled, Hsave.
    cbn [files calls _id new_File]. rewrite bool_decide_eq_false_2 by exact Hfresh.
    reflexivity. }
  rewrite Hupload. cbn [fst snd]. rewrite api_files_runs by exact Hfind. cbn [fst files].
  eexists _, _, (toJSON doc). split; [reflexivity|].
  do 5 (split; [reflexivity|]). split; [reflexivity|].
  split; [rewrite length_fmap, (Permutation_length (sort_uploadDate_desc_Permutation _)),
            length_app; cbn; lia|].
  split.
  { intros item Hin. apply list_elem_of_fmap in Hin as (d & -> & _).
    intros k. cbn. reflexivity. }
  split.
  { apply list_elem_of_fmap_2. rewrite sort_uploadDate_desc_Permutation.
    apply elem_of_app. right. left. }
  repeat split.
Qed.

Lemma listing_shape_differs_from_upload_shape_witness :
  exists sent items listed,
    fst (api_upload
           (Examples.answers [callback_result Examples.cat_url]
              "65a000000000000000000002" 1700000060000)
           Examples.form Examples.one_file) =
      Returned (res_json (JObj [ ("message", JStr "File uploaded successfully");
                                 ("file", sent) ]))
    /\ keys sent = ["id"; "filename"; "url"; "uploadDate"]
    /\ get "id" sent = Some (JStr "65a000000000000000000002")
    /\ get "filename" sent = Some (JStr "cat.png")
    /\ get "url" sent = Some (JStr "https://res.cloudinary.com/demo/mern-uploads/cat.png")
    /\ get "uploadDate" sent = Some (JDate 1700000060000)
    /\ fst (api_files (Examples.answers [] "" 1700000120000)
              (snd (api_upload
                      (Examples.answers [callback_result Examples.cat_url]
                         "65a000000000000000000002" 1700000060000)
                      Examples.form Examples.one_file))) = Returned (res_json (JArr items))
    /\ length items = 2%nat
    /\ (forall item, item ∈ items ->
          has_keys ["_id"; "filename"; "originalName"; "cloudinaryUrl"; "uploadDate"; "__v"]
            item)
    /\ listed ∈ items
    /\ get "_id" listed = get "id" sent
    /\ get "filename" listed = get "filename" sent
    /\ get "cloudinaryUrl" listed = get "url" sent
    /\ get "uploadDate" listed = get "uploadDate" sent
    /\ get "originalName" listed = Some (JStr "cat.png")
    /\ get "__v" listed = Some (JNum 0).
Proof.
  apply (listing_shape_differs_from_upload_shape
           (Examples.answers [callback_result Examples.cat_url]
              "65a000000000000000000002" 1700000060000)
           (Examples.answers [] "" 1700000120000)
           Examples.form Examples.cat_file Examples.cat_url Examples.one_file);
    try reflexivity.
  vm_compute. intros Hin. apply list_elem_of_singleton in Hin. discriminate.
Defined.

(** ** Deleting *)

Lemma lookup_id_elem (l : list FileDoc) d :
  NoDup (_id <$> l) -> d ∈ l -> lookup_id (_id d) l = Some d.
Proof.
  induction l as [|x rest IH]; intros Hnodup Hin; [inversion Hin|].
  cbn [fmap list_fmap] in Hnodup. apply NoDup_cons in Hnodup as [Hfresh Hrest].
  cbn [lookup_id]. apply elem_of_cons in Hin as [->|Hin].
  - rewrite bool_decide_eq_true_2 by reflexivity. reflexivity.
  - case_bool_decide as Heq; [|apply IH; assumption].
    exfalso. apply Hfresh. rewrite Heq. apply list_elem_of_fmap_2. exact Hin.
Qed.

Lemma api_files_delete_refused o id w :
  castObjectId (ObjectId_from_12_bytes o) id = None ->
  api_files_delete o id w =
    (Returned (res_status_json 500 (JObj [ ("error", JStr "Delete failed") ])),
     {| files := files w; calls := calls w ++ [File_findById id] |}).
Proof. intros Hcast. run. rewrite Hcast. reflexivity. Qed.

Lemma api_files_delete_absent o id i w :
  castObjectId (ObjectId_from_12_bytes o) id = Some i ->
  findById_fault o = None ->
  lookup_id i (files w) = None ->
  api_files_delete o id w =
    (Returned (res_status_json 404 (JObj [ ("error", JStr "File not found") ])),
     {| files := files w; calls := calls w ++ [File_findById id] |}).
Proof.
  intros Hcast Hfind Hnone. run. rewrite Hcast, Hfind. cbn [files]. rewrite Hnone.
  reflexivity.
Qed.

Lemma api_files_delete_present o id i w d :
  castObjectId (ObjectId_from_12_bytes o) id = Some i ->
  findById_fault o = None ->
  findByIdAndDelete_fault o = None ->
  lookup_id i (files w) = Some d ->
  api_files_delete o id w =
    (Returned (res_json (JObj [ ("message", JStr "File deleted from database") ])),
     {| files := remove_id i (files w);
        calls := calls w ++ [File_findById id; File_findByIdAndDelete id] |}).
Proof.
  intros Hcast Hfind Hdelete Hsome. run. rewrite Hcast, Hfind. cbn [files].
  rewrite Hsome, Hdelete. cbn. rewrite <- app_assoc. reflexivity.
Qed.

(** What a delete does to the collection: nothing, or the removal of the
    document of that id. *)
Lemma api_files_delete_files o id w :
  files (snd (api_files_delete o id w)) = files w \/
  exists i, files (snd (api_files_delete o id w)) = remove_id i (files w).
Proof.
  run. destruct (castObjectId (ObjectId_from_12_bytes o) id) as [i|];
    [|left; reflexivity].
  destruct (findById_fault o); [left; reflexivity|]. cbn [files].
  destruct (lookup_id i (files w)); [|left; reflexivity].
  destruct (findByIdAndDelete_fault o); [left; reflexivity|]. right. exists i. reflexivity.
Qed.

(** C4, as the claim states it, fails: no stored document has the id
    [abc], and the delete of [abc] answers 500 "Delete failed", not a
    not-found error, because the id cannot be cast to an ObjectId. *)
Lemma delete_of_a_malformed_id_is_a_server_error :
  (forall d, d ∈ files Examples.two_files -> toHexString (_id d) <> "abc")
  /\ api_files_delete (Examples.answers [] "" 1700000120000) "abc" Examples.two_files =
       (Returned (res_status_json 500 (JObj [ ("error", JStr "Delete failed") ])),
        {| files := [Examples.dog_doc; Examples.cat_doc];
           calls := [File_findById "abc"] |})
  /\ fst (api_files_delete (Examples.answers [] "" 1700000120000) "abc" Examples.two_files)
     <> Returned (res_status_json 404 (JObj [ ("error", JStr "File not found") ])).
Proof.
  split; [|split; [reflexivity | discriminate]].
  intros d Hin.
  apply elem_of_cons in Hin as [->|Hin]; [discriminate|].
  apply list_elem_of_singleton in Hin as ->. discriminate.
Qed.

(** C4, amended. With the database answering, and ids unique in the
    collection.  A delete for an id that is not an ObjectId (not 24
    hexadecimal digits, nor, for a driver that takes them, twelve bytes)
    answers 500 "Delete failed" and leaves the collection as it is.  A delete
    for an ObjectId that no document has answers 404 and leaves the collection
    as it is.  A delete for the ObjectId of a stored document, in whatever
    letter case it is written, answers 200 with a confirmation, takes exactly
    that document out of the collection, and no later listing shows it. *)
Theorem delete_by_id o id w :
  findById_fault o = None ->
  findByIdAndDelete_fault o = None ->
  NoDup (ids w) ->
  (castObjectId (ObjectId_from_12_bytes o) id = None ->
   api_files_delete o id w =
     (Returned (res_status_json 500 (JObj [ ("error", JStr "Delete failed") ])),
      {| files := files w; calls := calls w ++ [File_findById id] |}))
  /\
  (forall i, castObjectId (ObjectId_from_12_bytes o) id = Some i -> i ∉ ids w ->
   api_files_delete o id w =
     (Returned (res_status_json 404 (JObj [ ("error", JStr "File not found") ])),
      {| files := files w; calls := calls w ++ [File_findById id] |}))
  /\
  (forall d, d ∈ files w ->
     castObjectId (ObjectId_from_12_bytes o) id = Some (_id d) ->
     let w' := snd (api_files_delete o id w) in
     fst (api_files_delete o id w) =
       Returned (res_json (JObj [ ("message", JStr "File deleted from database") ]))
     /\ (exists before after : list FileDoc,
           files w = before ++ d :: after /\ files w' = before ++ after)
     /\ (_id d ∉ ids w')
     /\ forall o', find_fault o' = None ->
          exists found,
            fst (api_files o' w') = Returned (res_json (JArr (toJSON <$> found)))
            /\ found ≡ₚ files w'
            /\ (d ∉ found)
            /\ _id d ∉ _id <$> found).
Proof.
  intros Hfind Hdelete Hnodup. split; [|split].
  - apply api_files_delete_refused.
  - intros i Hcast Habsent. apply (api_files_delete_absent o id i w Hcast Hfind).
    apply lookup_id_None. exact Habsent.
  - intros d Hin Hcast. cbv zeta.
    pose proof (lookup_id_elem _ _ Hnodup Hin) as Hsome.
    rewrite (api_files_delete_present o id (_id d) w d Hcast Hfind Hdelete Hsome).
    cbn [fst snd].
    assert (Hgone : _id d ∉ _id <$> remove_id (_id d) (files w))
      by (apply remove_id_gone; exact Hnodup).
    split; [reflexivity|]. split; [|split; [exact Hgone|]].
    + destruct (remove_id_split _ _ _ Hsome) as (before & after & H1 & H2 & _).
      exists before, after. split; assumption.
    + intros o' Hfind'. eexists. rewrite api_files_runs by exact Hfind'. cbn [fst files].
      split; [reflexivity|]. split; [apply sort_uploadDate_desc_Permutation|].
      rewrite sort_uploadDate_desc_Permutation. split; [|exact Hgone].
      intros Hd. apply Hgone. apply list_elem_of_fmap_2. exact Hd.
Qed.

Lemma delete_by_id_witness :
  fst (api_files_delete (Examples.answers [] "" 1700000120000)
         "65A000000000000000000001" Examples.two_files) =
    Returned (res_json (JObj [ ("message", JStr "File deleted from database") ]))
  /\
  api_files_delete (Examples.answers [] "" 1700000120000)
    "65a0000000000000000000ff" Examples.two_files =
    (Returned (res_status_json 404 (JObj [ ("error", JStr "File not found") ])),
     {| files := [Examples.dog_doc; Examples.cat_doc];
        calls := [File_findById "65a0000000000000000000ff"] |})
  /\
  api_files_delete (Examples.answers [] "" 1700000120000)
    "not-an-id" Examples.two_files =
    (Returned (res_status_json 500 (JObj [ ("error", JStr "Delete failed") ])),
     {| files := [Examples.dog_doc; Examples.cat_doc];
        calls := [File_findById "not-an-id"] |}).
Proof.
  assert (Hnodup : NoDup (ids Examples.two_files)).
  { vm_compute. apply NoDup_cons. split.
    - intros Hin. apply list_elem_of_singleton in Hin. discriminate.
    - apply NoDup_singleton. }
  split; [|split].
  - destruct (delete_by_id (Examples.answers [] "" 1700000120000)
                "65A000000000000000000001" Examples.two_files
                eq_refl eq_refl Hnodup) as (_ & _ & Hpresent).
    destruct (Hpresent Examples.dog_doc) as [Hanswer _];
      [left | reflexivity | exact Hanswer].
  - destruct (delete_by_id (Examples.answers [] "" 1700000120000)
                "65a0000000000000000000ff" Examples.two_files
                eq_refl eq_refl Hnodup) as (_ & Habsent & _).
    apply (Habsent (Examples.oid "65a0000000000000000000ff")); [reflexivity|].
    vm_compute. intros Hin.
    apply elem_of_cons in Hin as [|Hin]; [discriminate|].
    apply list_elem_of_singleton in Hin. discriminate.
  - destruct (delete_by_id (Examples.answers [] "" 1700000120000)
                "not-an-id" Examples.two_files
                eq_refl eq_refl Hnodup) as (Hrefused & _ & _).
    apply Hrefused. reflexivity.
Defined.

(** C6. Whatever a delete answers, the calls it makes are calls to mongoose:
    none goes to Cloudinary, whose calls stay what they were.  A delete
    that answers 200 has made two calls, the lookup and the removal. *)
Theorem delete_makes_no_storage_call o id w :
  exists made,
    calls (snd (api_files_delete o id w)) = calls w ++ made
    /\ Forall (fun c => is_cloudinary c = false) made
    /\ cloudinary_calls (snd (api_files_delete o id w)) = cloudinary_calls w
    /\ forall r, fst (api_files_delete o id w) = Returned r -> status r = 200 ->
         made = [File_findById id; File_findByIdAndDelete id].
Proof.
  unfold cloudinary_calls. run.
  destruct (castObjectId (ObjectId_from_12_bytes o) id) as [i|]; cbn [files calls fst snd].
  2:{ exists [File_findById id]. repeat split.
    - repeat constructor.
    - rewrite filter_app. cbn. apply app_nil_r.
    - intros r [= <-]. discriminate. }
  destruct (findById_fault o); cbn [files calls fst snd].
  { exists [File_findById id]. repeat split.
    - repeat constructor.
    - rewrite filter_app. cbn. apply app_nil_r.
    - intros r [= <-]. discriminate. }
  destruct (lookup_id i (files w)); cbn [files calls fst snd].
  2:{ exists [File_findById id]. repeat split.
    - repeat constructor.
    - rewrite filter_app. cbn. apply app_nil_r.
    - intros r [= <-]. discriminate. }
  destruct (findByIdAndDelete_fault o); cbn [files calls fst snd];
    exists [File_findById id; File_findByIdAndDelete id]; rewrite <- app_assoc;
    (repeat split; [repeat constructor | rewrite filter_app; cbn; apply app_nil_r]).
Qed.

(** ** The status routes *)

Lemma truthy_Some (x : option string) :
  truthy x = true <-> exists s, x = Some s /\ s <> "".
Proof.
  destruct x as [s|]; cbn [truthy].
  - destruct (String.eqb_spec s "") as [->|Hne]; cbn [negb].
    + split; [discriminate | intros (s & [= <-] & Hne); congruence].
    + split; [eauto | reflexivity].
  - split; [discriminate | intros (s & Hs & _); discriminate].
Qed.

(** Neither status route changes anything, and both always answer 200. *)
Lemma status_routes_have_no_effect process_env o w :
  (exists j, api_test process_env w = (Returned (res_json j), w))
  /\ (exists j, health process_env o w = (Returned (res_json j), w)).
Proof. split; eexists; reflexivity. Qed.

(** The flag both routes send says whether the cloud name is set. *)
Lemma configured_flag_is_cloud_name process_env o w :
  (get "cloudinary_configured"
     (JObj [ ("message", JStr "Backend is working!");
             ("cloudinary_configured", JBool (cloudinary_configured process_env)) ])
   = Some (JBool (truthy (process_env !! "CLOUDINARY_CLOUD_NAME"))))
  /\ fst (api_test process_env w) =
       Returned (res_json (JObj [ ("message", JStr "Backend is working!");
                                  ("cloudinary_configured",
                                   JBool (truthy (process_env !! "CLOUDINARY_CLOUD_NAME"))) ]))
  /\ fst (health process_env o w) =
       Returned (res_json (JObj [ ("status", JStr "OK");
                                  ("timestamp", JDate (Date_now o));
                                  ("cloudinary_configured",
                                   JBool (truthy (process_env !! "CLOUDINARY_CLOUD_NAME"))) ])).
Proof. repeat split. Qed.

(** The start-up validation finds nothing missing exactly when all three
    variables are set. *)
Lemma cloudinary_env_complete process_env :
  cloudinary_env_missing process_env = false <->
  truthy (process_env !! "CLOUDINARY_CLOUD_NAME") = true
  /\ truthy (process_env !! "CLOUDINARY_API_KEY") = true
  /\ truthy (process_env !! "CLOUDINARY_API_SECRET") = true.
Proof.
  unfold cloudinary_env_missing.
  destruct (truthy (process_env !! "CLOUDINARY_CLOUD_NAME")),
           (truthy (process_env !! "CLOUDINARY_API_KEY")),
           (truthy (process_env !! "CLOUDINARY_API_SECRET")); cbn; intuition congruence.
Qed.

(** With all three variables set, the flag is [true]. *)
Lemma configured_when_complete process_env :
  cloudinary_env_missing process_env = false ->
  cloudinary_configured process_env = true.
Proof. intros H. apply cloudinary_env_complete in H as [H _]. exact H. Qed.

(** C8. With only [CLOUDINARY_CLOUD_NAME] set, the start-up validation
    reports the Cloudinary variables as missing, and yet [GET /api/test] and
    [GET /health] both send [cloudinary_configured: true]; neither changes
    the world. *)
Theorem configured_flag_with_cloud_name_only :
  cloudinary_env_missing cloud_name_only = true
  /\ (forall w,
        api_test cloud_name_only w =
          (Returned (res_json (JObj [ ("message", JStr "Backend is working!");
                                      ("cloudinary_configured", JBool true) ])), w))
  /\ (forall o w,
        health cloud_name_only o w =
          (Returned (res_json (JObj [ ("status", JStr "OK");
                                      ("timestamp", JDate (Date_now o));
                                      ("cloudinary_configured", JBool true) ])), w)).
Proof. repeat split. Qed.

(** ** What holds in every state of the service *)

(** What a request does to the collection. *)
Lemma app_files process_env o req w :
  files (snd (app process_env o req w)) = files w
  \/ (exists d, files (snd (app process_env o req w)) = files w ++ [d]
                /\ (_id d ∉ ids w) /\ filename d = originalName d)
  \/ (exists id, files (snd (app process_env o req w)) = remove_id id (files w)).
Proof.
  destruct req as [|body| |id|]; cbn [app].
  - left; reflexivity.
  - destruct (api_upload_files o body w) as [Hsame|(file & result & _ & _ & Hfresh & Hnew)];
      [left; exact Hsame|].
    right; left. eexists. split; [exact Hnew|]. split; [exact Hfresh | reflexivity].
  - left. apply api_files_files.
  - destruct (api_files_delete_files o id w) as [Hsame|Hremoved];
      [left; exact Hsame | right; right; exact Hremoved].
  - left; reflexivity.
Qed.

Lemma remove_id_sublist id (l : list FileDoc) d : d ∈ remove_id id l -> d ∈ l.
Proof.
  induction l as [|x rest IH]; cbn [remove_id]; [auto|].
  case_bool_decide; [right; assumption|].
  rewrite !elem_of_cons. intros [->|Hin]; [left | right]; auto.
Qed.

(** X7. In every state the service reaches from an empty collection, by
    any requests and whatever the outside answers, ids are unique, and every
    document has the same [filename] and [originalName]. *)
Lemma reachable_invariant process_env w :
  reachable process_env w ->
  NoDup (ids w) /\ forall d, d ∈ files w -> filename d = originalName d.
Proof.
  induction 1 as [|w o req _ [IHids IHnames]].
  - split; [constructor | intros d Hin; inversion Hin].
  - unfold ids in *.
    destruct (app_files process_env o req w)
      as [->|[(d & -> & Hfresh & Hd)|(id & ->)]].
    + split; assumption.
    + split.
      * rewrite fmap_app. apply NoDup_app. split; [exact IHids|].
        split; [|apply NoDup_singleton].
        intros x Hx Hx'. apply list_elem_of_singleton in Hx' as ->. apply Hfresh, Hx.
      * intros d' Hin. apply elem_of_app in Hin as [Hin|Hin]; [apply IHnames, Hin|].
        apply list_elem_of_singleton in Hin as ->. exact Hd.
    + split; [apply remove_id_NoDup, IHids|].
      intros d Hin. apply IHnames. eapply remove_id_sublist, Hin.
Qed.

(** * Further properties of the server *)

(** ** Runs of the upload and of the delete *)

Lemma api_upload_saves o body file result w :
  single upload "file" body = inr (Some file) ->
  upload_promise (stream_events o) = Fulfilled result ->
  save_fault o = None ->
  ObjectId o ∉ ids w ->
  api_upload o body w =
    (Returned (res_json (uploaded (new_File o (originalname file) (originalname file)
                                     (secure_url result)))),
     {| files := files w ++ [new_File o (originalname file) (originalname file)
                               (secure_url result)];
        calls := calls w ++
                 [ cloudinary_upload_stream "auto" "mern-uploads" (buffer file);
                   File_save (new_File o (originalname file) (originalname file)
                                (secure_url result)) ] |}).
Proof.
  intros Hfile Hfulfilled Hsave Hfresh. unfold api_upload. rewrite Hfile. run.
  rewrite Hfulfilled, Hsave. cbn [files calls _id new_File].
  rewrite bool_decide_eq_false_2 by exact Hfresh.
  cbn. rewrite <- app_assoc. reflexivity.
Qed.

Lemma api_upload_rejected o body file message w :
  single upload "file" body = inr (Some file) ->
  upload_promise (stream_events o) = Rejected message ->
  api_upload o body w =
    (Returned (res_status_json 500 (JObj [ ("error", JStr "Upload failed");
                                           ("details", JStr message) ])),
     {| files := files w;
        calls := calls w ++ [cloudinary_upload_stream "auto" "mern-uploads" (buffer file)] |}).
Proof.
  intros Hfile Hrejected. unfold api_upload. rewrite Hfile. run. rewrite Hrejected.
  reflexivity.
Qed.

Lemma lookup_id_snoc (l : list FileDoc) d :
  _id d ∉ _id <$> l -> lookup_id (_id d) (l ++ [d]) = Some d.
Proof.
  induction l as [|x rest IH]; cbn [fmap list_fmap].
  - intros _. rewrite app_nil_l. cbn [lookup_id].
    rewrite bool_decide_eq_true_2 by reflexivity. reflexivity.
  - rewrite not_elem_of_cons. intros [Hne Hrest].
    change ((x :: rest) ++ [d]) with (x :: (rest ++ [d])). cbn [lookup_id].
    case_bool_decide; [congruence | apply IH, Hrest].
Qed.

Lemma remove_id_snoc (l : list FileDoc) d :
  _id d ∉ _id <$> l -> remove_id (_id d) (l ++ [d]) = l.
Proof.
  induction l as [|x rest IH]; cbn [fmap list_fmap].
  - intros _. rewrite app_nil_l. cbn [remove_id].
    rewrite bool_decide_eq_true_2 by reflexivity. reflexivity.
  - rewrite not_elem_of_cons. intros [Hne Hrest].
    change ((x :: rest) ++ [d]) with (x :: (rest ++ [d])). cbn [remove_id].
    case_bool_decide; [congruence|]. rewrite IH; auto.
Qed.


(** ** Failures of the upload *)

(** X2. When the file has reached Cloudinary and the write to MongoDB is
    refused, the answer is 500 with the database's message; no document is
    stored, and the call to Cloudinary has been made all the same, with
    nothing done about the uploaded object. *)
Theorem upload_save_failure_leaves_remote_object o body file result message w :
  single upload "file" body = inr (Some file) ->
  upload_promise (stream_events o) = Fulfilled result ->
  save_fault o = Some message ->
  api_upload o body w =
    (Returned (res_status_json 500 (JObj [ ("error", JStr "Upload failed");
                                           ("details", JStr message) ])),
     {| files := files w;
        calls := calls w ++
                 [ cloudinary_upload_stream "auto" "mern-uploads" (buffer file);
                   File_save (new_File o (originalname file) (originalname file)
                                (secure_url result)) ] |}).
Proof.
  intros Hfile Hfulfilled Hsave. unfold api_upload. rewrite Hfile. run.
  rewrite Hfulfilled, Hsave. cbn. rewrite <- app_assoc. reflexivity.
Qed.

Lemma upload_save_failure_leaves_remote_object_witness :
  fst (api_upload
         {| stream_events := [callback_result Examples.cat_url];
            ObjectId := Examples.oid "65a000000000000000000002";
            ObjectId_from_12_bytes := false; Date_now := 1700000060000;
            save_fault := Some "buffering timed out"; find_fault := None;
            findById_fault := None; findByIdAndDelete_fault := None |}
         Examples.form Examples.one_file) =
  Returned (res_status_json 500 (JObj [ ("error", JStr "Upload failed");
                                        ("details", JStr "buffering timed out") ])).
Proof.
  rewrite (upload_save_failure_leaves_remote_object
             {| stream_events := [callback_result Examples.cat_url];
                ObjectId := Examples.oid "65a000000000000000000002";
            ObjectId_from_12_bytes := false; Date_now := 1700000060000;
                save_fault := Some "buffering timed out"; find_fault := None;
                findById_fault := None; findByIdAndDelete_fault := None |}
             Examples.form Examples.cat_file Examples.cat_url "buffering timed out"
             Examples.one_file eq_refl eq_refl eq_refl).
  reflexivity.
Defined.

(** X3. The calls an upload makes are none, or the upload to Cloudinary, or
    that upload followed by one save: MongoDB is written to only after
    Cloudinary has been called, and Cloudinary is called at most once. *)
Theorem upload_calls_in_order o body w :
  exists made,
    calls (snd (api_upload o body w)) = calls w ++ made
    /\ (made = []
        \/ (exists content, made = [cloudinary_upload_stream "auto" "mern-uploads" content])
        \/ (exists content doc,
              made = [cloudinary_upload_stream "auto" "mern-uploads" content; File_save doc]
              /\ exists result, upload_promise (stream_events o) = Fulfilled result
                                /\ cloudinaryUrl doc = secure_url result)).
Proof.
  unfold api_upload.
  destruct (single upload "file" body) as [e|[file|]];
    [exists []; split; [symmetry; apply app_nil_r | left; reflexivity] | |
     exists []; split; [symmetry; apply app_nil_r | left; reflexivity]].
  run. cbn [files calls].
  destruct (upload_promise (stream_events o)) as [|result|message] eqn:Hpromise;
    cbn [fst snd calls].
  - eexists. split; [reflexivity|]. right; left. eauto.
  - assert (Hsaved : exists made,
              (calls w ++ [cloudinary_upload_stream "auto" "mern-uploads" (buffer file)]) ++
              [File_save (new_File o (originalname file) (originalname file) (secure_url result))]
              = calls w ++ made
              /\ (made = [] \/
                  (exists content, made = [cloudinary_upload_stream "auto" "mern-uploads" content]) \/
                  (exists content doc,
                     made = [cloudinary_upload_stream "auto" "mern-uploads" content; File_save doc]
                     /\ exists result0, Fulfilled result = Fulfilled result0
                                        /\ cloudinaryUrl doc = secure_url result0))).
    { eexists. split; [rewrite <- app_assoc; reflexivity|]. right; right.
      eexists _, _. split; [reflexivity|]. exists result. split; reflexivity. }
    destruct (save_fault o); [exact Hsaved|].
    cbn [_id new_File]. case_bool_decide; exact Hsaved.
  - eexists. split; [reflexivity|]. right; left. eauto.
Qed.

Lemma upload_promise_unsettled events :
  upload_promise events = Unsettled <-> events = [].
Proof.
  destruct events as [|ev rest]; [split; reflexivity|].
  rewrite upload_promise_first. split; [|discriminate].
  destruct ev; discriminate.
Qed.

(** ** What every request does *)

(** X4. No route lets an exception escape, and every answer has status 200,
    400, 404 or 500.  The only request that is never answered is an upload,
    of a file multer accepts, during which the stream to Cloudinary reports
    nothing at all. *)
Theorem every_request_is_answered_or_waits_for_cloudinary process_env o req w :
  match fst (app process_env o req w) with
  | Returned r => status r = 200 \/ status r = 400 \/ status r = 404 \/ status r = 500
  | Thrown _ => False
  | Hangs =>
      exists body file,
        req = POST_api_upload body
        /\ single upload "file" body = inr (Some file)
        /\ stream_events o = []
  end.
Proof.
  destruct req as [|body| |id|]; cbn [app].
  - left; reflexivity.
  - unfold api_upload.
    destruct (single upload "file" body) as [e|[file|]] eqn:Hsingle;
      [right; right; right; reflexivity | | right; left; reflexivity].
    run. cbn [files calls].
    destruct (upload_promise (stream_events o)) as [|result|message] eqn:Hpromise;
      cbn [fst].
    + exists body, file. repeat split; [exact Hsingle|].
      apply upload_promise_unsettled, Hpromise.
    + destruct (save_fault o); cbn [fst]; [right; right; right; reflexivity|].
      cbn [_id new_File]. case_bool_decide; cbn [fst];
        [right; right; right; reflexivity | left; reflexivity].
    + right; right; right; reflexivity.
  - run. destruct (find_fault o); cbn [fst]; [right; right; right|left]; reflexivity.
  - run. destruct (castObjectId (ObjectId_from_12_bytes o) id) as [i|]; cbn [fst];
      [|right; right; right; reflexivity].
    destruct (findById_fault o); cbn [fst files]; [right; right; right; reflexivity|].
    destruct (lookup_id i (files w)); cbn [fst]; [|right; right; left; reflexivity].
    destruct (findByIdAndDelete_fault o); cbn [fst];
      [right; right; right; reflexivity | left; reflexivity].
  - left; reflexivity.
Qed.

(** X5. The collection changes only in a request that is answered 200, and
    that request is an upload or a delete: an answer 400, 404 or 500, and a
    request that is never answered, leave every document in place, whatever
    failed on the way. *)
Theorem collection_changes_only_on_success process_env o req w :
  files (snd (app process_env o req w)) <> files w ->
  exists r,
    fst (app process_env o req w) = Returned r
    /\ status r = 200
    /\ is_get req = false.
Proof.
  destruct req as [|body| |id|]; cbn [app]; intros Hchanged.
  - exfalso. apply Hchanged. reflexivity.
  - revert Hchanged. unfold api_upload.
    destruct (single upload "file" body) as [e|[file|]];
      [intros Hc; exfalso; apply Hc; reflexivity | |
       intros Hc; exfalso; apply Hc; reflexivity].
    run. cbn [files calls].
    destruct (upload_promise (stream_events o)) as [|result|message];
      cbn [fst snd files]; try (intros Hc; exfalso; apply Hc; reflexivity).
    destruct (save_fault o); cbn [fst snd files];
      [intros Hc; exfalso; apply Hc; reflexivity|].
    cbn [_id new_File]. case_bool_decide; cbn [fst snd files];
      [intros Hc; exfalso; apply Hc; reflexivity|].
    intros _. eexists. repeat split.
  - exfalso. apply Hchanged. apply api_files_files.
  - revert Hchanged. run.
    destruct (castObjectId (ObjectId_from_12_bytes o) id) as [i|]; cbn [fst snd files];
      [|intros Hc; exfalso; apply Hc; reflexivity].
    destruct (findById_fault o); cbn [fst snd files];
      [intros Hc; exfalso; apply Hc; reflexivity|].
    destruct (lookup_id i (files w)); cbn [fst snd files];
      [|intros Hc; exfalso; apply Hc; reflexivity].
    destruct (findByIdAndDelete_fault o); cbn [fst snd files];
      [intros Hc; exfalso; apply Hc; reflexivity|].
    intros _. eexists. repeat split.
  - exfalso. apply Hchanged. reflexivity.
Qed.

Lemma collection_changes_only_on_success_witness :
  exists r,
    fst (app ∅ (Examples.answers [] "" 1700000120000)
           (DELETE_api_files "65a000000000000000000001") Examples.two_files) = Returned r
    /\ status r = 200
    /\ is_get (DELETE_api_files "65a000000000000000000001") = false.
Proof.
  apply (collection_changes_only_on_success ∅ (Examples.answers [] "" 1700000120000)
           (DELETE_api_files "65a000000000000000000001") Examples.two_files).
  vm_compute. discriminate.
Defined.

(** X6. The three GET routes only read: whatever the environment and the
    outside are, they leave the collection as it is and make no call to
    Cloudinary. *)
Theorem get_routes_only_read process_env o req w :
  is_get req = true ->
  files (snd (app process_env o req w)) = files w
  /\ cloudinary_calls (snd (app process_env o req w)) = cloudinary_calls w.
Proof.
  destruct req as [|body| |id|]; cbn [app is_get]; try discriminate; intros _.
  - split; reflexivity.
  - unfold cloudinary_calls. run.
    destruct (find_fault o); cbn [fst snd files calls];
      (split; [reflexivity|]); rewrite filter_app; cbn; apply app_nil_r.
  - split; reflexivity.
Qed.

Lemma get_routes_only_read_witness :
  files (snd (app ∅ (Examples.answers [] "" 1700000120000) GET_api_files Examples.two_files))
    = files Examples.two_files
  /\ cloudinary_calls
       (snd (app ∅ (Examples.answers [] "" 1700000120000) GET_api_files Examples.two_files))
     = cloudinary_calls Examples.two_files.
Proof.
  apply (get_routes_only_read ∅ (Examples.answers [] "" 1700000120000)
           GET_api_files Examples.two_files).
  reflexivity.
Defined.

(** ** Requests one after the other *)



(** X9. An upload that succeeds, followed by a delete of the id it answered
    with, leaves the collection as it was before the two. *)
Theorem upload_then_delete_restores_collection o o' body file result w :
  single upload "file" body = inr (Some file) ->
  upload_promise (stream_events o) = Fulfilled result ->
  save_fault o = None ->
  ObjectId o ∉ ids w ->
  findById_fault o' = None ->
  findByIdAndDelete_fault o' = None ->
  fst (api_files_delete o' (ObjectId o) (snd (api_upload o body w))) =
    Returned (res_json (JObj [ ("message", JStr "File deleted from database") ]))
  /\ files (snd (api_files_delete o' (ObjectId o) (snd (api_upload o body w)))) = files w.
Proof.
  intros Hfile Hfulfilled Hsave Hfresh Hfind Hdelete.
  rewrite (api_upload_saves o body file result w Hfile Hfulfilled Hsave Hfresh).
  cbn [snd].
  set (doc := new_File o (originalname file) (originalname file) (secure_url result)).
  assert (Hsome : lookup_id (ObjectId o) (files w ++ [doc]) = Some doc)
    by (apply (lookup_id_snoc (files w) doc), Hfresh).
  erewrite (api_files_delete_present o' (ObjectId o) (ObjectId o));
    [|apply castObjectId_toHexString|exact Hfind|exact Hdelete|exact Hsome].
  cbn [fst snd files]. split; [reflexivity|].
  apply (remove_id_snoc (files w) doc), Hfresh.
Qed.

Lemma upload_then_delete_restores_collection_witness :
  files (snd (api_files_delete (Examples.answers [] "" 1700000120000)
                "65a000000000000000000002"
                (snd (api_upload
                        (Examples.answers [callback_result Examples.cat_url]
                           "65a000000000000000000002" 1700000060000)
                        Examples.form Examples.one_file)))) =
  files Examples.one_file.
Proof.
  apply (upload_then_delete_restores_collection
           (Examples.answers [callback_result Examples.cat_url]
              "65a000000000000000000002" 1700000060000)
           (Examples.answers [] "" 1700000120000)
           Examples.form Examples.cat_file Examples.cat_url Examples.one_file);
    try reflexivity.
  vm_compute. intros Hin. apply list_elem_of_singleton in Hin. discriminate.
Defined.

(** X10. A delete that succeeded cannot be repeated: the same id, asked for
    again, gets 404, and the collection stays as the first delete left it. *)
Theorem second_delete_is_not_found o o' (id : objectid) w :
  findById_fault o = None ->
  findByIdAndDelete_fault o = None ->
  findById_fault o' = None ->
  NoDup (ids w) ->
  id ∈ ids w ->
  fst (api_files_delete o' id (snd (api_files_delete o id w))) =
    Returned (res_status_json 404 (JObj [ ("error", JStr "File not found") ]))
  /\ files (snd (api_files_delete o' id (snd (api_files_delete o id w)))) =
     files (snd (api_files_delete o id w)).
Proof.
  intros Hfind Hdelete Hfind' Hnodup Hin.
  destruct (lookup_id_is_Some id (files w) Hin) as [d Hsome].
  rewrite (api_files_delete_present o id id w d
             (castObjectId_toHexString _ _) Hfind Hdelete Hsome). cbn [snd].
  rewrite (api_files_delete_absent o' id id _ (castObjectId_toHexString _ _) Hfind');
    [split; reflexivity|].
  cbn [files]. apply lookup_id_None, remove_id_gone, Hnodup.
Qed.

Lemma second_delete_is_not_found_witness :
  fst (api_files_delete (Examples.answers [] "" 1700000180000) "65a000000000000000000001"
         (snd (api_files_delete (Examples.answers [] "" 1700000120000)
                 "65a000000000000000000001" Examples.two_files))) =
    Returned (res_status_json 404 (JObj [ ("error", JStr "File not found") ])).
Proof.
  apply (second_delete_is_not_found
           (Examples.answers [] "" 1700000120000) (Examples.answers [] "" 1700000180000)
           (Examples.oid "65a000000000000000000001") Examples.two_files);
    try reflexivity.
  - vm_compute. apply NoDup_cons. split; [|apply NoDup_singleton].
    intros Hin. apply list_elem_of_singleton in Hin. discriminate.
  - vm_compute. left.
Defined.

Lemma reachable_invariant_witness :
  NoDup (ids (snd (app ∅ (Examples.answers [callback_result Examples.cat_url]
                            "65a000000000000000000002" 1700000060000)
                     (POST_api_upload Examples.form) {| files := []; calls := [] |})))
  /\ forall d,
       d ∈ files (snd (app ∅ (Examples.answers [callback_result Examples.cat_url]
                                "65a000000000000000000002" 1700000060000)
                         (POST_api_upload Examples.form) {| files := []; calls := [] |})) ->
       filename d = originalName d.
Proof.
  apply (reachable_invariant ∅). apply after_request, at_start.
Defined.

Lemma listing_dates_ignore_insertion_order_witness :
  uploadDate <$> sort_uploadDate_desc [Examples.dog_doc; Examples.cat_doc] =
  uploadDate <$> sort_uploadDate_desc [Examples.cat_doc; Examples.dog_doc].
Proof.
  apply (listing_dates_ignore_insertion_order
           [Examples.dog_doc; Examples.cat_doc] [Examples.cat_doc; Examples.dog_doc]).
  apply perm_swap.
Defined.

Lemma sort_uploadDate_desc_strict_witness :
  StronglySorted (fun a b => uploadDate b < uploadDate a)
    (sort_uploadDate_desc [Examples.dog_doc; Examples.cat_doc]).
Proof.
  apply (sort_uploadDate_desc_strict [Examples.dog_doc; Examples.cat_doc]).
  vm_compute. apply NoDup_cons. split; [|apply NoDup_singleton].
  intros Hin. apply list_elem_of_singleton in Hin. discriminate.
Defined.

(** ** Configuration *)

(** X13. When the start-up validation finds the three Cloudinary variables
    present, both status routes send [cloudinary_configured: true]. *)
Theorem validated_environment_is_reported_configured process_env o w :
  cloudinary_env_missing process_env = false ->
  fst (api_test process_env w) =
    Returned (res_json (JObj [ ("message", JStr "Backend is working!");
                               ("cloudinary_configured", JBool true) ]))
  /\ fst (health process_env o w) =
       Returned (res_json (JObj [ ("status", JStr "OK");
                                  ("timestamp", JDate (Date_now o));
                                  ("cloudinary_configured", JBool true) ])).
Proof.
  intros Hcomplete. apply cloudinary_env_complete in Hcomplete as [Hname _].
  unfold api_test, health, cloudinary_configured. rewrite Hname. split; reflexivity.
Qed.

Lemma validated_environment_is_reported_configured_witness :
  fst (api_test
         (<["CLOUDINARY_API_SECRET" := "s3cret"]>
            (<["CLOUDINARY_API_KEY" := "1234"]> cloud_name_only))
         Examples.one_file) =
    Returned (res_json (JObj [ ("message", JStr "Backend is working!");
                               ("cloudinary_configured", JBool true) ])).
Proof.
  apply (validated_environment_is_reported_configured
           (<["CLOUDINARY_API_SECRET" := "s3cret"]>
              (<["CLOUDINARY_API_KEY" := "1234"]> cloud_name_only))
           (Examples.answers [] "" 1700000120000) Examples.one_file).
  reflexivity.
Defined.

(** X14. The connection string is never empty: it is the value of
    [MONGODB_URI] when that is set to a non-empty string, and the local
    default otherwise, also when the variable is set but empty. *)
Theorem MONGODB_URI_is_never_empty process_env :
  MONGODB_URI process_env <> ""
  /\ (forall s, process_env !! "MONGODB_URI" = Some s -> s <> "" ->
        MONGODB_URI process_env = s)
  /\ (process_env !! "MONGODB_URI" = None \/ process_env !! "MONGODB_URI" = Some "" ->
        MONGODB_URI process_env = "mongodb://localhost:27017/fileupload").
Proof.
  unfold MONGODB_URI, or_default.
  destruct (process_env !! "MONGODB_URI") as [s|]; cbn [truthy].
  - destruct (String.eqb_spec s "") as [->|Hne]; cbn [negb].
    + repeat split; [discriminate | intros s [= <-] H; congruence].
    + repeat split; [exact Hne | intros s' [= <-] _; reflexivity |
                     intros [H|[= H]]; [discriminate | congruence]].
  - repeat split; [discriminate | intros s H; discriminate].
Qed.

(** * The client and the server together *)

Lemma single_formData f :
  single upload "file" (Client.formData f) =
    if String.eqb (basename (Client.file_name f)) "" then inr None
    else if 10 * 1024 * 1024 <=? Z.of_nat (length (Client.file_bytes f))
    then inl LIMIT_FILE_SIZE
    else inr (Some (received f)).
Proof.
  unfold single, Client.formData. cbn [single_from].
  destruct (String.eqb (basename (Client.file_name f)) ""); [reflexivity|].
  rewrite String.eqb_refl. cbn [negb]. change (fileSize upload) with (10 * 1024 * 1024).
  destruct (10 * 1024 * 1024 <=? Z.of_nat (length (Client.file_bytes f))); reflexivity.
Qed.



(** X16. The busy flag: starting from a page that is not uploading, the flag
    is still set after [handleUpload] exactly when a file was selected and
    the request was never settled; in every other case (nothing selected,
    success, failure of any kind) it is clear again. *)
Theorem busy_flag_stays_only_while_pending {N} (axios : request -> N -> Client.settled * N)
    toString s n :
  Client.uploading s = false ->
  Client.uploading (fst (Client.handleUpload axios toString s n)) = true <->
  exists f, Client.selectedFile s = Some f
            /\ fst (axios (POST_api_upload (Client.formData f)) n) = Client.pending.
Proof.
  intros Hidle. unfold Client.handleUpload.
  destruct (Client.selectedFile s) as [f|] eqn:Hselected.
  - destruct (axios (POST_api_upload (Client.formData f)) n) as [[r|error|] n'] eqn:Hpost;
      cbn [fst].
    + unfold Client.fetchFiles.
      destruct (axios GET_api_files n') as [[r'|error'|] n'']; cbn;
        (split; [discriminate | intros (f' & [= <-] & Hp); rewrite Hpost in Hp; discriminate]).
    + cbn. split; [discriminate|].
      intros (f' & [= <-] & Hp). rewrite Hpost in Hp. discriminate.
    + cbn. split; [intros _; exists f; rewrite Hpost; split; reflexivity | reflexivity].
  - cbn. rewrite Hidle. split; [discriminate | intros (f & Hf & _); discriminate].
Qed.

Lemma busy_flag_stays_only_while_pending_witness :
  Client.uploading
    (fst (Client.handleUpload (fun (_ : request) (n : unit) => (Client.pending, n))
            (fun _ => "[object Object]")
            (Client.handleFileSelect
               (Some {| Client.file_name := "cat.png"; Client.file_type := "image/png";
                        Client.file_bytes := Examples.cat |})
               Client.initial)
            tt)) = true.
Proof.
  apply (busy_flag_stays_only_while_pending
           (fun (_ : request) (n : unit) => (Client.pending, n))
           (fun _ => "[object Object]")
           (Client.handleFileSelect
              (Some {| Client.file_name := "cat.png"; Client.file_type := "image/png";
                       Client.file_bytes := Examples.cat |})
              Client.initial)
           tt); [reflexivity|].
  eexists. split; reflexivity.
Defined.

Lemma single_formData_accepts f :
  basename (Client.file_name f) <> "" ->
  Z.of_nat (length (Client.file_bytes f)) < 10 * 1024 * 1024 ->
  single upload "file" (Client.formData f) = inr (Some (received f)).
Proof.
  intros Hnamed Hsmall. rewrite single_formData.
  destruct (String.eqb_spec (basename (Client.file_name f)) ""); [contradiction|].
  destruct (Z.leb_spec (10 * 1024 * 1024) (Z.of_nat (length (Client.file_bytes f))));
    [lia | reflexivity].
Qed.

Lemma server_reached process_env req w o rest :
  server process_env req (w, Some o :: rest) =
    (axios_settles (fst (app process_env o req w)), (snd (app process_env o req w), rest)).
Proof. unfold server. cbn [fst snd]. destruct (app process_env o req w). reflexivity. Qed.

Lemma server_not_reached process_env req w rest :
  server process_env req (w, None :: rest) =
    (Client.rejected {| Client.error_response := None; Client.error_request := true;
                        Client.error_message := "Network Error" |},
     (w, rest)).
Proof. reflexivity. Qed.

(** ** Uploading from the page *)

(** X17. A chosen file of more than 10 MiB: the server refuses it before the
    handler runs and Express answers with a page, not with JSON, so the
    client, which reads [error] off the answer, shows "Upload failed:
    undefined"; the selection is kept, the flag is clear, and nothing has
    changed on the server.  The one file the parser does not measure is a
    file whose name comes out empty: its part is passed over, and the page
    shows the handler's "No file uploaded". *)
Theorem oversized_upload_shows_undefined process_env toString s f w o rest :
  Client.selectedFile s = Some f ->
  10 * 1024 * 1024 < Z.of_nat (length (Client.file_bytes f)) ->
  Client.handleUpload (server process_env) toString s (w, Some o :: rest) =
    ({| Client.selectedFile := Some f; Client.uploading := false;
        Client.files := Client.files s;
        Client.message :=
          if String.eqb (basename (Client.file_name f)) ""
          then "Upload failed: No file uploaded"
          else "Upload failed: undefined" |},
     (w, rest)).
Proof.
  intros Hselected Hlarge. unfold Client.handleUpload. rewrite Hselected.
  rewrite server_reached. cbn [app]. unfold api_upload. rewrite single_formData.
  destruct (String.eqb (basename (Client.file_name f)) "").
  - unfold Client.setUploading, Client.setMessage. cbn. rewrite Hselected. reflexivity.
  - destruct (Z.leb_spec (10 * 1024 * 1024) (Z.of_nat (length (Client.file_bytes f))));
      [|lia].
    unfold Client.setUploading, Client.setMessage. cbn. rewrite Hselected. reflexivity.
Qed.

Lemma oversized_upload_shows_undefined_witness :
  Client.handleUpload (server ∅) (fun _ => "[object Object]")
    {| Client.selectedFile :=
         Some {| Client.file_name := "big.bin";
                 Client.file_type := "application/octet-stream";
                 Client.file_bytes := Examples.big |};
       Client.uploading := false; Client.files := JArr []; Client.message := "" |}
    (Examples.one_file,
     [Some (Examples.answers [callback_result Examples.cat_url]
              "65a000000000000000000002" 1700000060000)]) =
    ({| Client.selectedFile :=
          Some {| Client.file_name := "big.bin";
                  Client.file_type := "application/octet-stream";
                  Client.file_bytes := Examples.big |};
        Client.uploading := false; Client.files := JArr [];
        Client.message := "Upload failed: undefined" |},
     (Examples.one_file, [])).
Proof.
  apply (oversized_upload_shows_undefined ∅ (fun _ => "[object Object]")
           {| Client.selectedFile :=
                Some {| Client.file_name := "big.bin";
                        Client.file_type := "application/octet-stream";
                        Client.file_bytes := Examples.big |};
              Client.uploading := false; Client.files := JArr []; Client.message := "" |}
           {| Client.file_name := "big.bin";
              Client.file_type := "application/octet-stream";
              Client.file_bytes := Examples.big |}
           Examples.one_file
           (Examples.answers [callback_result Examples.cat_url]
              "65a000000000000000000002" 1700000060000)
           []).
  - reflexivity.
  - cbn [Client.file_bytes]. unfold Examples.big. rewrite repeat_length. lia.
Defined.

(** X18. When the upload to Cloudinary of a file with a plain name and fewer
    than 10 MiB fails, the server sends the cause in [details], which the
    client does not read: whatever the cause, the page shows "Upload failed:
    Upload failed", in the error style, with the selection kept and the flag
    clear. *)
Theorem storage_failure_shows_no_details process_env toString s f w o rest cause :
  Client.selectedFile s = Some f ->
  plain_name (Client.file_name f) = true ->
  Z.of_nat (length (Client.file_bytes f)) < 10 * 1024 * 1024 ->
  upload_promise (stream_events o) = Rejected cause ->
  fst (Client.handleUpload (server process_env) toString s (w, Some o :: rest)) =
    {| Client.selectedFile := Some f; Client.uploading := false;
       Client.files := Client.files s;
       Client.message := "Upload failed: Upload failed" |}
  /\ Client.banner
       (fst (Client.handleUpload (server process_env) toString s (w, Some o :: rest))) =
     Some ("message error", "Upload failed: Upload failed").
Proof.
  intros Hselected Hplain Hsmall Hrejected.
  destruct (plain_name_kept _ Hplain) as (Hbase & Hne & _).
  assert (Hnamed : basename (Client.file_name f) <> "") by (rewrite Hbase; exact Hne).
  assert (Hstate :
    fst (Client.handleUpload (server process_env) toString s (w, Some o :: rest)) =
      {| Client.selectedFile := Some f; Client.uploading := false;
         Client.files := Client.files s;
         Client.message := "Upload failed: Upload failed" |}).
  { unfold Client.handleUpload. rewrite Hselected, server_reached. cbn [app].
    rewrite (api_upload_rejected o _ (received f) cause w
               (single_formData_accepts f Hnamed Hsmall) Hrejected).
    unfold Client.setUploading, Client.setMessage. cbn. rewrite Hselected. reflexivity. }
  rewrite Hstate. split; reflexivity.
Qed.

Lemma storage_failure_shows_no_details_witness :
  fst (Client.handleUpload (server ∅) (fun _ => "[object Object]")
         {| Client.selectedFile :=
              Some {| Client.file_name := "cat.png"; Client.file_type := "image/png";
                      Client.file_bytes := Examples.cat |};
            Client.uploading := false; Client.files := JArr []; Client.message := "" |}
         (Examples.one_file,
          [Some (Examples.answers [callback_error "Invalid api_key"]
                   "65a000000000000000000002" 1700000060000)])) =
    {| Client.selectedFile :=
         Some {| Client.file_name := "cat.png"; Client.file_type := "image/png";
                 Client.file_bytes := Examples.cat |};
       Client.uploading := false; Client.files := JArr [];
       Client.message := "Upload failed: Upload failed" |}.
Proof.
  apply (storage_failure_shows_no_details ∅ (fun _ => "[object Object]")
           {| Client.selectedFile :=
                Some {| Client.file_name := "cat.png"; Client.file_type := "image/png";
                        Client.file_bytes := Examples.cat |};
              Client.uploading := false; Client.files := JArr []; Client.message := "" |}
           {| Client.file_name := "cat.png"; Client.file_type := "image/png";
              Client.file_bytes := Examples.cat |}
           Examples.one_file
           (Examples.answers [callback_error "Invalid api_key"]
              "65a000000000000000000002" 1700000060000)
           [] "Cloudinary error: Invalid api_key");
    reflexivity.
Defined.

(** X19. An upload that succeeds, with the server reached again for the
    list: the page shows "File uploaded successfully!", the selection is
    cleared, the flag is clear, and the list shown is the server's listing
    with the new document in it, stored under the chosen file's name.  The
    file has fewer than 10 MiB and a name the parser keeps as it is: not
    empty, no path separator, not "." or "..", and every character below
    128. *)
Theorem successful_upload_refreshes_the_list process_env toString s f w o o' rest result :
  Client.selectedFile s = Some f ->
  plain_name (Client.file_name f) = true ->
  Z.of_nat (length (Client.file_bytes f)) < 10 * 1024 * 1024 ->
  upload_promise (stream_events o) = Fulfilled result ->
  save_fault o = None ->
  ObjectId o ∉ ids w ->
  find_fault o' = None ->
  let doc := new_File o (Client.file_name f) (Client.file_name f) (secure_url result) in
  fst (Client.handleUpload (server process_env) toString s
         (w, Some o :: Some o' :: rest)) =
    {| Client.selectedFile := None; Client.uploading := false;
       Client.files := JArr (toJSON <$> sort_uploadDate_desc (files w ++ [doc]));
       Client.message := "File uploaded successfully!" |}
  /\ files (fst (snd (Client.handleUpload (server process_env) toString s
                        (w, Some o :: Some o' :: rest)))) = files w ++ [doc].
Proof.
  intros Hselected Hplain Hsmall Hfulfilled Hsave Hfresh Hfind. cbv zeta.
  destruct (plain_name_kept _ Hplain) as (Hbase & Hnamed & Hkept).
  assert (Hnamed' : basename (Client.file_name f) <> "") by (rewrite Hbase; exact Hnamed).
  unfold Client.handleUpload. rewrite Hselected, server_reached. cbn [app].
  rewrite (api_upload_saves o _ (received f) result w
             (single_formData_accepts f Hnamed' Hsmall) Hfulfilled Hsave Hfresh).
  unfold received. cbn [originalname]. rewrite Hkept.
  cbn [fst snd axios_settles status res_json Z.leb Z.ltb Z.compare Pos.compare
       Pos.compare_cont andb].
  unfold Client.fetchFiles. rewrite server_reached. cbn [app].
  rewrite api_files_runs by exact Hfind.
  cbn. split; reflexivity.
Qed.

Lemma successful_upload_refreshes_the_list_witness :
  fst (Client.handleUpload (server ∅) (fun _ => "[object Object]")
         {| Client.selectedFile :=
              Some {| Client.file_name := "cat.png"; Client.file_type := "image/png";
                      Client.file_bytes := Examples.cat |};
            Client.uploading := false; Client.files := JArr []; Client.message := "" |}
         (Examples.one_file,
          [ Some (Examples.answers [callback_result Examples.cat_url]
                    "65a000000000000000000002" 1700000060000);
            Some (Examples.answers [] "" 1700000120000) ])) =
    {| Client.selectedFile := None; Client.uploading := false;
       Client.files := JArr [toJSON Examples.cat_doc; toJSON Examples.dog_doc];
       Client.message := "File uploaded successfully!" |}.
Proof.
  apply (successful_upload_refreshes_the_list ∅ (fun _ => "[object Object]")
           {| Client.selectedFile :=
                Some {| Client.file_name := "cat.png"; Client.file_type := "image/png";
                        Client.file_bytes := Examples.cat |};
              Client.uploading := false; Client.files := JArr []; Client.message := "" |}
           {| Client.file_name := "cat.png"; Client.file_type := "image/png";
              Client.file_bytes := Examples.cat |}
           Examples.one_file
           (Examples.answers [callback_result Examples.cat_url]
              "65a000000000000000000002" 1700000060000)
           (Examples.answers [] "" 1700000120000)
           [] Examples.cat_url);
    try reflexivity.
  - vm_compute. intros Hin. apply list_elem_of_singleton in Hin. discriminate.
Defined.

(** X20. With a file selected, [handleUpload] against the server ends in one
    of three ways: the request is never settled, and the flag stays set with
    the message as it was; or the flag is clear and the page shows "File
    uploaded successfully!" in the success style; or the flag is clear and
    the page shows, in the error style, one of five fixed texts.  No cause of
    a failure is ever shown. *)
Theorem upload_outcomes_on_the_page process_env toString s f n :
  Client.selectedFile s = Some f ->
  let s' := fst (Client.handleUpload (server process_env) toString s n) in
  (Client.uploading s' = true /\ Client.message s' = Client.message s)
  \/ (Client.uploading s' = false
      /\ Client.banner s' = Some ("message success", "File uploaded successfully!"))
  \/ (Client.uploading s' = false
      /\ exists m,
           m ∈ [ "Error fetching files. Make sure backend is running.";
                 "Upload failed: undefined";
                 "Upload failed: Upload failed";
                 "Upload failed: Cannot connect to server";
                 "Upload failed: No file uploaded" ]
           /\ Client.banner s' = Some ("message error", m)).
Proof.
  intros Hselected. cbv zeta.
  remember (fst (Client.handleUpload (server process_env) toString s n)) as s' eqn:Hs'.
  revert Hs'. unfold Client.handleUpload. rewrite Hselected.
  destruct n as [w [|[o|] rest]]; [page_outcome | | page_outcome].
  rewrite server_reached. cbn [app]. unfold api_upload. rewrite single_formData.
  destruct (String.eqb (basename (Client.file_name f)) ""); [run; page_outcome|].
  destruct (10 * 1024 * 1024 <=? Z.of_nat (length (Client.file_bytes f)));
    [page_outcome|].
  run. cbn [files calls].
  destruct (upload_promise (stream_events o)) as [|result|cause];
    [page_outcome | | page_outcome].
  destruct (save_fault o); [page_outcome|].
  cbn [_id new_File]. case_bool_decide; [page_outcome|].
  cbn [fst snd axios_settles status res_json Z.leb Z.ltb Z.compare Pos.compare
       Pos.compare_cont andb].
  unfold Client.fetchFiles.
  destruct rest as [|[o'|] rest']; [page_outcome | | page_outcome].
  rewrite server_reached. cbn [app]. run.
  destruct (find_fault o'); page_outcome.
Qed.

Lemma upload_outcomes_on_the_page_witness :
  Client.banner
    (fst (Client.handleUpload (server ∅) (fun _ => "[object Object]")
            {| Client.selectedFile :=
                 Some {| Client.file_name := "cat.png"; Client.file_type := "image/png";
                         Client.file_bytes := Examples.cat |};
               Client.uploading := false; Client.files := JArr []; Client.message := "" |}
            (Examples.one_file, [None]))) =
  Some ("message error", "Upload failed: Cannot connect to server").
Proof.
  destruct (upload_outcomes_on_the_page ∅ (fun _ => "[object Object]")
              {| Client.selectedFile :=
                   Some {| Client.file_name := "cat.png"; Client.file_type := "image/png";
                           Client.file_bytes := Examples.cat |};
                 Client.uploading := false; Client.files := JArr [];
                 Client.message := "" |}
              {| Client.file_name := "cat.png"; Client.file_type := "image/png";
                 Client.file_bytes := Examples.cat |}
              (Examples.one_file, [None]) eq_refl) as [[Hbusy _]|[[_ Hdone]|[_ _]]].
  - discriminate Hbusy.
  - discriminate Hdone.
  - reflexivity.
Defined.

(** ** The list and the grid *)

(** X21. [fetchFiles] against a server that is reached: when the query
    succeeds the page holds the server's listing, newest first; when it
    fails the list on the page stays as it was, and the message tells the
    user to make sure the backend is running. *)
Theorem fetchFiles_against_the_server process_env s w o rest :
  fst (Client.fetchFiles (server process_env) s (w, Some o :: rest)) =
    match find_fault o with
    | None => Client.setFiles (JArr (toJSON <$> sort_uploadDate_desc (files w))) s
    | Some _ => Client.setMessage "Error fetching files. Make sure backend is running." s
    end.
Proof.
  unfold Client.fetchFiles. rewrite server_reached. cbn [app]. run.
  destruct (find_fault o); reflexivity.
Qed.

(** X22. Every value the grid reads off a listed file is there: a card made
    of a stored document has the document's [_id] as key and as the id its
    delete button passes on, its URL as image, its two names as alternative
    text and heading; documents with different ids get different keys. *)
Theorem cards_of_a_listing s (l : list FileDoc) :
  NoDup (_id <$> l) ->
  exists cards,
    Client.file_cards (Client.setFiles (JArr (toJSON <$> l)) s) = Some cards
    /\ cards = (fun d => {| Client.key := Some (JStr (_id d));
                            Client.image_src := Some (JStr (cloudinaryUrl d));
                            Client.image_alt := Some (JStr (filename d));
                            Client.heading := Some (JStr (originalName d));
                            Client.delete_id := Some (JStr (_id d)) |}) <$> l
    /\ NoDup (Client.key <$> cards).
Proof.
  intros Hnodup. eexists. split; [|split; [reflexivity|]].
  - cbn. rewrite <- list_fmap_compose. reflexivity.
  - rewrite <- list_fmap_compose.
    assert (Hkeys : (Client.key ∘ (fun d =>
                       {| Client.key := Some (JStr (_id d));
                          Client.image_src := Some (JStr (cloudinaryUrl d));
                          Client.image_alt := Some (JStr (filename d));
                          Client.heading := Some (JStr (originalName d));
                          Client.delete_id := Some (JStr (_id d)) |})) <$> l
                    = (fun id : objectid => Some (JStr id)) <$> (_id <$> l))
      by (rewrite <- list_fmap_compose; reflexivity).
    rewrite Hkeys. apply NoDup_fmap_2; [|exact Hnodup].
    intros x y Hkey. apply toHexString_inj. congruence.
Qed.

Lemma cards_of_a_listing_witness :
  exists cards,
    Client.file_cards
      (Client.setFiles (JArr (toJSON <$> [Examples.cat_doc; Examples.dog_doc])) Client.initial)
      = Some cards
    /\ cards = (fun d => {| Client.key := Some (JStr (_id d));
                            Client.image_src := Some (JStr (cloudinaryUrl d));
                            Client.image_alt := Some (JStr (filename d));
                            Client.heading := Some (JStr (originalName d));
                            Client.delete_id := Some (JStr (_id d)) |})
                 <$> [Examples.cat_doc; Examples.dog_doc]
    /\ NoDup (Client.key <$> cards).
Proof.
  apply (cards_of_a_listing Client.initial [Examples.cat_doc; Examples.dog_doc]).
  vm_compute. apply NoDup_cons. split; [|apply NoDup_singleton].
  intros Hin. apply list_elem_of_singleton in Hin. discriminate.
Defined.

(** ** Deleting from the page *)

(** X23. The delete button of a listed document, once confirmed, with the
    server reached twice and the database answering: the server removes
    that document and no other, and the page shows "File deleted
    successfully" over the server's new listing, in which the document is
    not. *)
Theorem delete_button_removes_its_document process_env toString s w o o' rest d :
  NoDup (ids w) ->
  d ∈ files w ->
  findById_fault o = None ->
  findByIdAndDelete_fault o = None ->
  find_fault o' = None ->
  fst (Client.handleDelete (server process_env) toString true
         (Client.delete_id (Client.file_card (toJSON d))) s
         (w, Some o :: Some o' :: rest)) =
    {| Client.selectedFile := Client.selectedFile s;
       Client.uploading := Client.uploading s;
       Client.files := JArr (toJSON <$> sort_uploadDate_desc (remove_id (_id d) (files w)));
       Client.message := "File deleted successfully" |}
  /\ files (fst (snd (Client.handleDelete (server process_env) toString true
                        (Client.delete_id (Client.file_card (toJSON d))) s
                        (w, Some o :: Some o' :: rest)))) = remove_id (_id d) (files w)
  /\ (d ∉ sort_uploadDate_desc (remove_id (_id d) (files w)))
  /\ forall d', d' ∈ files w -> d' <> d -> d' ∈ sort_uploadDate_desc (remove_id (_id d) (files w)).
Proof.
  intros Hnodup Hin Hfind Hdelete Hfind'.
  pose proof (lookup_id_elem _ _ Hnodup Hin) as Hsome.
  unfold Client.handleDelete. cbn [negb Client.delete_id Client.file_card toJSON get assoc
                                   String.eqb Ascii.eqb Bool.eqb Client.template].
  rewrite server_reached. cbn [app].
  rewrite (api_files_delete_present o (_id d) (_id d) w d
             (castObjectId_toHexString _ _) Hfind Hdelete Hsome).
  cbn [fst snd axios_settles status res_json Z.leb Z.ltb Z.compare Pos.compare
       Pos.compare_cont andb].
  unfold Client.fetchFiles. rewrite server_reached. cbn [app].
  rewrite api_files_runs by exact Hfind'. cbn [fst snd files].
  split; [reflexivity|]. split; [reflexivity|]. split.
  - rewrite sort_uploadDate_desc_Permutation. intros Hd.
    apply (remove_id_gone (_id d) (files w) Hnodup). apply list_elem_of_fmap_2. exact Hd.
  - intros d' Hin' Hne. rewrite sort_uploadDate_desc_Permutation.
    apply remove_id_others; [|exact Hin'].
    intros Heq. apply Hne.
    pose proof (lookup_id_elem _ _ Hnodup Hin') as Hsome'.
    rewrite Heq, Hsome in Hsome'. congruence.
Qed.

Lemma delete_button_removes_its_document_witness :
  fst (Client.handleDelete (server ∅) (fun _ => "[object Object]") true
         (Client.delete_id (Client.file_card (toJSON Examples.dog_doc))) Client.initial
         (Examples.two_files,
          [ Some (Examples.answers [] "" 1700000120000);
            Some (Examples.answers [] "" 1700000180000) ])) =
    {| Client.selectedFile := None; Client.uploading := false;
       Client.files := JArr [toJSON Examples.cat_doc];
       Client.message := "File deleted successfully" |}.
Proof.
  apply (delete_button_removes_its_document ∅ (fun _ => "[object Object]") Client.initial
           Examples.two_files
           (Examples.answers [] "" 1700000120000) (Examples.answers [] "" 1700000180000)
           [] Examples.dog_doc);
    try reflexivity.
  - vm_compute. apply NoDup_cons. split; [|apply NoDup_singleton].
    intros Hin. apply list_elem_of_singleton in Hin. discriminate.
  - left.
Defined.

(** X24. A delete, once confirmed, for the id of a document the server does
    not have (the card is out of date): the page shows "Delete failed: File not found",
    the list on the page is not fetched again and stays as it was, and the
    server's collection is unchanged. *)
Theorem stale_delete_reports_not_found process_env toString s w o rest (id : objectid) :
  id ∉ ids w ->
  findById_fault o = None ->
  fst (Client.handleDelete (server process_env) toString true (Some (JStr id)) s
         (w, Some o :: rest)) =
    {| Client.selectedFile := Client.selectedFile s;
       Client.uploading := Client.uploading s;
       Client.files := Client.files s;
       Client.message := "Delete failed: File not found" |}
  /\ snd (Client.handleDelete (server process_env) toString true (Some (JStr id)) s
            (w, Some o :: rest)) =
     ({| files := files w; calls := calls w ++ [File_findById id] |}, rest).
Proof.
  intros Habsent Hfind. unfold Client.handleDelete. cbn [negb Client.template].
  rewrite server_reached. cbn [app].
  rewrite (api_files_delete_absent o id id w (castObjectId_toHexString _ _) Hfind
             (proj2 (lookup_id_None id (files w)) Habsent)).
  split; reflexivity.
Qed.

Lemma stale_delete_reports_not_found_witness :
  fst (Client.handleDelete (server ∅) (fun _ => "[object Object]") true
         (Some (JStr "65a0000000000000000000ff")) Client.initial
         (Examples.one_file, [Some (Examples.answers [] "" 1700000120000)])) =
    {| Client.selectedFile := None; Client.uploading := false;
       Client.files := JArr [];
       Client.message := "Delete failed: File not found" |}.
Proof.
  apply (stale_delete_reports_not_found ∅ (fun _ => "[object Object]") Client.initial
           Examples.one_file (Examples.answers [] "" 1700000120000) []
           (Examples.oid "65a0000000000000000000ff")).
  - vm_compute. intros Hin. apply list_elem_of_singleton in Hin. discriminate.
  - reflexivity.
Defined.

(** ** The button and the probe *)

(** X25. With a file selected, the upload button after [handleUpload] is
    enabled again exactly when the request was rejected (the selection is
    kept, for another try); after a success it is disabled until a new file
    is chosen, and while the request is pending it stays disabled. *)
Theorem upload_button_after_upload {N} (axios : request -> N -> Client.settled * N)
    toString s f n :
  Client.selectedFile s = Some f ->
  Client.upload_disabled (fst (Client.handleUpload axios toString s n)) =
    match fst (axios (POST_api_upload (Client.formData f)) n) with
    | Client.rejected _ => false
    | _ => true
    end.
Proof.
  intros Hselected. unfold Client.handleUpload. rewrite Hselected.
  destruct (axios (POST_api_upload (Client.formData f)) n) as [[r|error|] n']; cbn [fst].
  - unfold Client.fetchFiles.
    destruct (axios GET_api_files n') as [[r'|error'|] n'']; reflexivity.
  - unfold Client.upload_disabled. cbn. rewrite Hselected. reflexivity.
  - unfold Client.upload_disabled. cbn. apply orb_true_r.
Qed.

Lemma upload_button_after_upload_witness :
  Client.upload_disabled
    (fst (Client.handleUpload (server ∅) (fun _ => "[object Object]")
            {| Client.selectedFile :=
                 Some {| Client.file_name := "cat.png"; Client.file_type := "image/png";
                         Client.file_bytes := Examples.cat |};
               Client.uploading := false; Client.files := JArr []; Client.message := "" |}
            (Examples.one_file, [None]))) = false.
Proof.
  rewrite (upload_button_after_upload (server ∅) (fun _ => "[object Object]")
             {| Client.selectedFile :=
                  Some {| Client.file_name := "cat.png"; Client.file_type := "image/png";
                          Client.file_bytes := Examples.cat |};
                Client.uploading := false; Client.files := JArr []; Client.message := "" |}
             {| Client.file_name := "cat.png"; Client.file_type := "image/png";
                Client.file_bytes := Examples.cat |}
             (Examples.one_file, [None]) eq_refl).
  reflexivity.
Defined.

(** X26. The connection probe changes the page only when the server is not
    reached, and then to tell the user to run the backend on port 5000; a
    server that is reached always passes the probe, whatever its
    configuration and database, and is left as it was. *)
Theorem probe_reports_only_an_unreachable_server process_env s w reached rest :
  fst (Client.testBackendConnection (server process_env) s (w, reached :: rest)) =
    match reached with
    | Some _ => s
    | None =>
        Client.setMessage
          "Cannot connect to backend server. Make sure it's running on port 5000." s
    end
  /\ snd (Client.testBackendConnection (server process_env) s (w, reached :: rest)) =
     (w, rest).
Proof. destruct reached; split; reflexivity. Qed.
